(** * joi-to-typescript: the schema-description-to-declaration compiler

    A shallow embedding of [src/parse.ts]: the parser from Joi description
    nodes to the [TypeContent] intermediate representation, and the renderer
    from [TypeContent] to TypeScript declaration text, followed by the
    properties of both that the specification states. *)

From Stdlib Require Import String Ascii List ZArith Bool Arith Lia.
From Stdlib Require Import Sorted Permutation.
Import ListNotations.
Open Scope string_scope.

(* ================================================================= *)
(** ** JavaScript values and strings *)

(** A JavaScript string is a sequence of code units; a Rocq [string] stands
    for it, one [ascii] per code unit.  [nl] is the line feed of the
    template literals. *)
Definition nl : string := String (ascii_of_nat 10) EmptyString.

(** [s.includes(sub)]: [sub] occurs somewhere in [s]. *)
Fixpoint includes (s sub : string) : bool :=
  if String.prefix sub s then true
  else match s with
       | EmptyString => false
       | String _ rest => includes rest sub
       end.

(** [s.repeat(n)]. *)
Fixpoint repeatStr (s : string) (n : nat) : string :=
  match n with
  | O => EmptyString
  | S k => s ++ repeatStr s k
  end.

(** [list.join(sep)] on an array of strings. *)
Definition join (sep : string) (l : list string) : string := String.concat sep l.

(** Truthiness of an optional string: [undefined] and [''] are falsy. *)
Definition truthy (o : option string) : bool :=
  match o with
  | Some s => negb (s =? EmptyString)
  | None => false
  end.

(** [`${o}`] for an optional string: [undefined] prints as the word. *)
Definition templ (o : option string) : string :=
  match o with
  | Some s => s
  | None => "undefined"
  end.

(** The values of an [allow] list.  The code asks three things of a value:
    whether it is [null], whether it is a string (and then which), and what
    a template literal prints for it.  A number is a double, and what
    Number::toString prints for a double ([5], [0.5], [1e+21], [NaN]) is not
    computed here: a number is given by that text.  So is any other value
    that is neither [null], a boolean, a number nor a string and that a
    template literal can print (an object prints as [[object Object]]); a
    symbol, which a template literal refuses, is not a value of this
    type. *)
Inductive JValue : Type :=
| JNull
| JBool (b : bool)
| JNum (printed : string)
| JStr (s : string)
| JOther (printed : string).

(** [typeof value === 'string']. *)
Definition isJsString (v : JValue) : bool :=
  match v with
  | JStr _ => true
  | _ => false
  end.

(** [`${value}`]. *)
Definition templValue (v : JValue) : string :=
  match v with
  | JNull => "null"
  | JBool true => "true"
  | JBool false => "false"
  | JNum printed => printed
  | JStr s => s
  | JOther printed => printed
  end.

(* ================================================================= *)
(** ** The intermediate representation (types.ts) *)

(** Modelled from the spec: the declaration of [TypeContent] lives in
    types.ts, which is not among the sources.  Section 3 of the
    specification gives it as a discriminated union of a leaf holding
    [content] and a composite holding [joinOperation] and [children], with
    the common metadata [name], [description], [required] and
    [customTypes], all optional. *)
Record BaseTypeContent : Type := mkBase {
  name : option string;
  customTypes : option (list string);
  required : option bool;
  description : option string
}.

#[warnings="-register-all"]
Inductive TypeContent : Type :=
| TypeContentChild (content : string) (base : BaseTypeContent)
| TypeContentRoot (joinOperation : string) (children : list TypeContent)
                  (base : BaseTypeContent).

Definition baseOf (t : TypeContent) : BaseTypeContent :=
  match t with
  | TypeContentChild _ b => b
  | TypeContentRoot _ _ b => b
  end.

Definition withBase (t : TypeContent) (b : BaseTypeContent) : TypeContent :=
  match t with
  | TypeContentChild c _ => TypeContentChild c b
  | TypeContentRoot j ch _ => TypeContentRoot j ch b
  end.

(** Modelled from the spec: [makeTypeContentChild] of types.ts builds a leaf
    from the fields it is given, the others staying [undefined]. *)
Definition makeTypeContentChild (content : string)
    (customTypes : option (list string)) (required : option bool)
    (name description : option string) : TypeContent :=
  TypeContentChild content (mkBase name customTypes required description).

(** Modelled from the spec: [makeTypeContentRoot] of types.ts builds a
    composite from the fields it is given; parse.ts never hands it
    [customTypes] or [required]. *)
Definition makeTypeContentRoot (joinOperation : string)
    (children : list TypeContent) (name description : option string)
    : TypeContent :=
  TypeContentRoot joinOperation children (mkBase name None None description).

(* ================================================================= *)
(** ** Exceptions *)

(** What the code throws.  [NeedsName], [MultipleArrayItems] and
    [UnsupportedJoin] are the three [throw new Error] of the renderer;
    [TypeError] is the engine's own, raised on reading a property of
    [undefined]; [StackExhausted] is the engine's RangeError when the
    recursion runs deeper than the call stack allows. *)
Inductive JsError : Type :=
| NeedsName (t : TypeContent)
| MultipleArrayItems
| UnsupportedJoin (op : string)
| TypeError (what : string)
| StackExhausted.

Inductive result (A : Type) : Type :=
| Ok (a : A)
| Throw (e : JsError).
Arguments Ok {A} a.
Arguments Throw {A} e.

Definition bind {A B : Type} (m : result A) (k : A -> result B) : result B :=
  match m with
  | Ok a => k a
  | Throw e => Throw e
  end.

Notation "x <- m ;; k" := (bind m (fun x => k))
  (at level 61, m at next level, right associativity).

(** [list.map(f)] where [f] may throw: the first exception aborts the map. *)
Definition mapE {A B : Type} (f : A -> result B) : list A -> result (list B) :=
  fix go (l : list A) : result (list B) :=
    match l with
    | [] => Ok []
    | a :: rest =>
        b <- f a ;;
        bs <- go rest ;;
        Ok (b :: bs)
    end.

(** Modelled from the spec: [filterMap] of utils.ts maps every element and
    keeps the results that are not [undefined] (section 4.1: filter out
    parses that returned nothing). *)
Definition filterMap {A B : Type} (f : A -> result (option B))
    : list A -> result (list B) :=
  fix go (l : list A) : result (list B) :=
    match l with
    | [] => Ok []
    | a :: rest =>
        r <- f a ;;
        bs <- go rest ;;
        match r with
        | Some b => Ok (b :: bs)
        | None => Ok bs
        end
    end.

(* ================================================================= *)
(** ** The renderer *)

Definition getIndentStr (indentLevel : nat) : string :=
  repeatStr "  " indentLevel.

Definition getDescriptionStr (commentEverything : bool) (name : option string)
    (description : option string) (indentLevel : nat) : string :=
  if negb commentEverything && negb (truthy description) then EmptyString
  else
    let docStr := if truthy description then templ description else templ name in
    let lines := ["/**"; " * " ++ docStr; " */"] in
    join nl (map (fun line => getIndentStr indentLevel ++ line) lines) ++ nl.

(** The result of the helper is the object [{ tsContent, description }],
    here a pair. *)
Definition tsContent (r : string * option string) : string := fst r.

Fixpoint typeContentToTsHelper (commentEverything : bool)
    (parsedSchema : TypeContent) (doExport : bool) (indentLevel : nat)
    {struct parsedSchema} : result (string * option string) :=
  match parsedSchema with
  | TypeContentChild content b => Ok (content, description b)
  | TypeContentRoot joinOperation children b =>
      if doExport && negb (truthy (name b)) then Throw (NeedsName parsedSchema)
      else if joinOperation =? "list" then
        childrenContent <-
          mapE (fun child => typeContentToTsHelper commentEverything child false 0)
               children ;;
        if (1 <? length childrenContent)%nat then Throw MultipleArrayItems
        else
          match childrenContent with
          | [] => Throw (TypeError "Cannot read property 'tsContent' of undefined")
          | first :: _ =>
              let content := tsContent first in
              let content :=
                if includes content "|" then "(" ++ content ++ ")" else content in
              let arrayStr := content ++ "[]" in
              if doExport then
                Ok ("export type " ++ templ (name b) ++ " = " ++ arrayStr ++ ";",
                    description b)
              else Ok (arrayStr, description b)
          end
      else if joinOperation =? "union" then
        childrenContent <-
          mapE (fun child =>
                  r <- typeContentToTsHelper commentEverything child false 0 ;;
                  Ok (tsContent r))
               children ;;
        let unionStr := join " | " childrenContent in
        if doExport then
          Ok ("export type " ++ templ (name b) ++ " = " ++ unionStr ++ ";",
              description b)
        else Ok (unionStr, description b)
      else if joinOperation =? "object" then
        if (length children =? 0)%nat && negb doExport then
          Ok ("object", description b)
        else
          objectStr <-
            (if negb (length children =? 0)%nat then
               childrenContent <-
                 mapE (fun child =>
                         childInfo <- typeContentToTsHelper commentEverything child
                                        false (indentLevel + 1) ;;
                         let descriptionStr :=
                           getDescriptionStr commentEverything (name (baseOf child))
                             (snd childInfo) (indentLevel + 1) in
                         let optionalStr :=
                           match required (baseOf child) with
                           | Some true => EmptyString
                           | _ => "?"
                           end in
                         Ok (descriptionStr ++ "  " ++ getIndentStr indentLevel
                               ++ templ (name (baseOf child)) ++ optionalStr ++ ": "
                               ++ tsContent childInfo ++ ";"))
                      children ;;
               Ok ("{" ++ nl ++ join nl childrenContent ++ nl
                     ++ getIndentStr indentLevel ++ "}")
             else Ok "{}") ;;
          if doExport then
            Ok ("export interface " ++ templ (name b) ++ " " ++ objectStr,
                description b)
          else Ok (objectStr, description b)
      else Throw (UnsupportedJoin joinOperation)
  end.

Definition typeContentToTs (commentEverything : bool) (parsedSchema : TypeContent)
    (doExport : bool) : result string :=
  r <- typeContentToTsHelper commentEverything parsedSchema doExport 0 ;;
  let descriptionStr :=
    getDescriptionStr commentEverything (name (baseOf parsedSchema)) (snd r) 0 in
  Ok (descriptionStr ++ tsContent r).

(* ================================================================= *)
(** ** Description nodes *)

(** [flags] of a description node. *)
Module Flags.
Record t : Type := mk {
  label : option string;
  description : option string;
  presence : option string;
  unknown : option bool
}.
End Flags.

(** A description node as Joi's [describe()] produces it: every field but
    [type] may be missing.  [keys] lists the entries of the object in the
    order of [Object.entries]; an element of [matches] stands for the
    [schema] field of the match, which a match may lack (the matches of a
    conditional alternative carry [ref], [is], [then] and no [schema]). *)
#[warnings="-register-all"]
Inductive Describe : Type := mkDescribe {
  type : string;
  flags : option Flags.t;
  allow : option (list JValue);
  items : option (list Describe);
  keys : option (list (string * Describe));
  matches : option (list (option Describe))
}.

(** The settings the parser reads. *)
Record Settings : Type := mkSettings {
  defaultToRequired : bool;
  sortPropertiesByName : bool;
  commentEverything : bool
}.

Definition supportedJoiTypes : list string :=
  ["array"; "object"; "alternatives"; "any"; "boolean"; "date"; "number"; "string"].

(** [list.includes(s)] on an array of strings. *)
Definition includesStr (l : list string) (s : string) : bool :=
  existsb (String.eqb s) l.

(** [details.flags?.f]. *)
Definition flag {A : Type} (f : Flags.t -> option A) (details : Describe) : option A :=
  match flags details with
  | Some fl => f fl
  | None => None
  end.

(** The object [{ label, description, required }], here a triple. *)
Definition getCommonDetails (details : Describe) (settings : Settings)
    : option string * option string * bool :=
  let label := flag Flags.label details in
  let description := flag Flags.description details in
  let presence := flag Flags.presence details in
  let required :=
    match presence with
    | Some p =>
        if p =? "optional" then false
        else if p =? "required" then true
        else defaultToRequired settings
    | None => defaultToRequired settings
    end in
  (label, description, required).

Fixpoint getAllCustomTypes (parsedSchema : TypeContent) : list string :=
  match parsedSchema with
  | TypeContentRoot _ children _ => flat_map getAllCustomTypes children
  | TypeContentChild _ b =>
      match customTypes b with
      | Some l => l
      | None => []
      end
  end.

(* ================================================================= *)
(** ** The parser *)

(** Equality of a value with [null] or with a string, the only comparisons
    the code makes ([=== null], [=== ''], [!== ''] and [includes] on the
    array of [null] and ['']): strict equality and the same-value-zero of
    [includes] agree there.  Two numbers or two other values are never
    compared; they are taken equal when they print alike. *)
Definition JValue_eqb (a b : JValue) : bool :=
  match a, b with
  | JNull, JNull => true
  | JBool x, JBool y => Bool.eqb x y
  | JNum x, JNum y => (x =? y)%string
  | JStr x, JStr y => (x =? y)%string
  | JOther x, JOther y => (x =? y)%string
  | _, _ => false
  end.

Definition includesValue (l : list JValue) (v : JValue) : bool :=
  existsb (JValue_eqb v) l.

Definition leaf (content : string) : TypeContent :=
  makeTypeContentChild content None None None None.

Definition parseBasicSchema (details : Describe) (settings : Settings)
    : result (option TypeContent) :=
  let '(name, description, _) := getCommonDetails details settings in
  let joiType := type details in
  let content := if joiType =? "date" then "Date" else joiType in
  let values := allow details in
  match values with
  | Some values =>
      if negb (length values =? 0)%nat then
        let allowedValues :=
          map (fun value =>
                 leaf (if isJsString value then "'" ++ templValue value ++ "'"
                       else templValue value))
              values in
        let allowedValues :=
          match nth_error values 0 with
          | Some JNull => leaf content :: allowedValues
          | _ => allowedValues
          end in
        Ok (Some (makeTypeContentRoot "union" allowedValues name description))
      else Ok (Some (makeTypeContentChild content None None name description))
  | None => Ok (Some (makeTypeContentChild content None None name description))
  end.

Definition stringAllowValues : list JValue := [JNull; JStr EmptyString].

Definition parseStringSchema (details : Describe) (settings : Settings)
    : result (option TypeContent) :=
  let '(name, description, _) := getCommonDetails details settings in
  let values := allow details in
  let plain := Ok (Some (makeTypeContentChild "string" None None name description)) in
  match values with
  | Some values =>
      if negb (length values =? 0)%nat then
        if (length values =? 1)%nat
           && match nth_error values 0 with
              | Some v => JValue_eqb v (JStr EmptyString)
              | None => false
              end
        then plain
        else
          let allowedValues :=
            map (fun value =>
                   if includesValue stringAllowValues value
                      && negb (JValue_eqb value (JStr EmptyString))
                   then leaf (templValue value)
                   else leaf ("'" ++ templValue value ++ "'"))
                values in
          let allowedValues :=
            if (length (filter (includesValue stringAllowValues) values)
                =? length values)%nat
            then leaf "string" :: allowedValues
            else allowedValues in
          Ok (Some (makeTypeContentRoot "union" allowedValues name description))
      else plain
  | None => plain
  end.

(** The cast object [{ type: 'any' }]. *)
Definition anyDescribe : Describe := mkDescribe "any" None None None None None.

(** [/^[$A-Z_][0-9A-Z_$]*$/i.test(key)].  Without the [u] flag, ignoring case
    never lets a code unit above 127 match an ASCII letter. *)
Definition isLetter (c : ascii) : bool :=
  let n := nat_of_ascii c in
  ((65 <=? n) && (n <=? 90) || (97 <=? n) && (n <=? 122))%nat.

Definition isDigit (c : ascii) : bool :=
  let n := nat_of_ascii c in
  ((48 <=? n) && (n <=? 57))%nat.

Definition isIdentStart (c : ascii) : bool :=
  (c =? "$")%char || isLetter c || (c =? "_")%char.

Definition isIdentPart (c : ascii) : bool :=
  isDigit c || isLetter c || (c =? "_")%char || (c =? "$")%char.

Fixpoint allChars (p : ascii -> bool) (s : string) : bool :=
  match s with
  | EmptyString => true
  | String c rest => p c && allChars p rest
  end.

Definition isIdentifier (key : string) : bool :=
  match key with
  | EmptyString => false
  | String c rest => isIdentStart c && allChars isIdentPart rest
  end.

(** [a > b] and [a < b] on two [name] fields: code-unit order on two
    strings, and [false] as soon as one side is [undefined]. *)
Definition jsLt (a b : option string) : bool :=
  match a, b with
  | Some x, Some y => String.ltb x y
  | _, _ => false
  end.

Definition jsGt (a b : option string) : bool := jsLt b a.

(** The comparator handed to [children.sort]. *)
Definition compareByName (a b : TypeContent) : Z :=
  if jsGt (name (baseOf a)) (name (baseOf b)) then 1%Z
  else if jsLt (name (baseOf a)) (name (baseOf b)) then (-1)%Z
  else 0%Z.

(** [Array.prototype.sort(cmp)]: a stable sort, here by insertion; [a] goes
    before the first element it does not compare greater than. *)
Fixpoint insertBy {A : Type} (cmp : A -> A -> Z) (a : A) (l : list A) : list A :=
  match l with
  | [] => [a]
  | b :: rest => if (cmp a b <=? 0)%Z then a :: b :: rest else b :: insertBy cmp a rest
  end.

Definition sortBy {A : Type} (cmp : A -> A -> Z) (l : list A) : list A :=
  fold_right (insertBy cmp) [] l.

(** The object literal cast to [TypeContentWithName]: it has no [__isRoot],
    so every test of that field takes it for a leaf. *)
Definition unknownProperty : TypeContent :=
  TypeContentChild "any"
    (mkBase (Some "[x: string]") None (Some true) (Some "Unknown Property")).

Definition setName (t : TypeContent) (n : string) : TypeContent :=
  let b := baseOf t in
  withBase t (mkBase (Some n) (customTypes b) (required b) (description b)).

Section Recursion.

(** The recursive calls go to [parseSchema] one frame further down. *)
Variable parseSchema :
  Describe -> Settings -> bool -> list string -> result (option TypeContent).

Definition parseArray (details : Describe) (settings : Settings)
    : result (option TypeContent) :=
  let item :=
    match items details with
    | Some its => nth_error its 0
    | None => Some anyDescribe
    end in
  let '(name, description, _) := getCommonDetails details settings in
  child <-
    match item with
    | Some item => parseSchema item settings true []
    | None => Throw (TypeError "Cannot read property 'flags' of undefined")
    end ;;
  match child with
  | Some child => Ok (Some (makeTypeContentRoot "list" [child] name description))
  | None => Ok None
  end.

Definition parseAlternatives (details : Describe) (settings : Settings)
    : result (option TypeContent) :=
  let '(label, description, _) := getCommonDetails details settings in
  let ignoreLabels := if truthy label then [templ label] else [] in
  children <-
    match matches details with
    | Some ms =>
        filterMap (fun schema : option Describe =>
                     match schema with
                     | Some schema => parseSchema schema settings true ignoreLabels
                     | None =>
                         Throw (TypeError "Cannot read property 'flags' of undefined")
                     end)
                  ms
    | None => Throw (TypeError "Cannot read property 'reduce' of undefined")
    end ;;
  if (length children =? 0)%nat then Ok None
  else Ok (Some (makeTypeContentRoot "union" children label description)).

Definition parseObjects (details : Describe) (settings : Settings)
    : result (option TypeContent) :=
  children <-
    filterMap (fun entry : string * Describe =>
                 let '(key, value) := entry in
                 parsedSchema <- parseSchema value settings true [] ;;
                 match parsedSchema with
                 | None => Ok None
                 | Some parsedSchema =>
                     Ok (Some (setName parsedSchema
                                 (if isIdentifier key then key
                                  else "'" ++ key ++ "'")))
                 end)
              (match keys details with
               | Some ks => ks
               | None => []
               end) ;;
  let children :=
    match flag Flags.unknown details with
    | Some true => (children ++ [unknownProperty])%list
    | _ => children
    end in
  let children :=
    if sortPropertiesByName settings then sortBy compareByName children
    else children in
  let '(name, description, _) := getCommonDetails details settings in
  Ok (Some (makeTypeContentRoot "object" children name description)).

(** The body of [parseSchema].  The diagnostic it logs for an unsupported
    type goes to the console and is no part of what it returns. *)
Definition parseSchemaBody (details : Describe) (settings : Settings)
    (useLabels : bool) (ignoreLabels : list string)
    : result (option TypeContent) :=
  let parseHelper (_ : unit) :=
    if type details =? "array" then parseArray details settings
    else if type details =? "string" then parseStringSchema details settings
    else if type details =? "alternatives" then parseAlternatives details settings
    else if type details =? "object" then parseObjects details settings
    else parseBasicSchema details settings in
  let '(label, description, required) := getCommonDetails details settings in
  if truthy label && useLabels && negb (includesStr ignoreLabels (templ label))
  then
    Ok (Some (makeTypeContentChild (templ label) (Some [templ label])
                (Some required) None description))
  else if negb (includesStr supportedJoiTypes (type details)) then Ok None
  else
    parsedSchema <- parseHelper tt ;;
    match parsedSchema with
    | None => Ok None
    | Some parsedSchema =>
        Ok (Some (withBase parsedSchema
                    (mkBase label (customTypes (baseOf parsedSchema))
                       (Some required) description)))
    end.

End Recursion.

(** [parseSchema], with the depth of the call stack that is left: a call
    with none left is the engine's stack exhaustion. *)
Fixpoint parseSchema (stack : nat) (details : Describe) (settings : Settings)
    (useLabels : bool) (ignoreLabels : list string)
    : result (option TypeContent) :=
  match stack with
  | O => Throw StackExhausted
  | S deeper => parseSchemaBody (parseSchema deeper) details settings useLabels ignoreLabels
  end.

(** The label short-circuit of [parseSchema]. *)
Definition labelShortCircuit (details : Describe) (useLabels : bool)
    (ignoreLabels : list string) : bool :=
  let label := flag Flags.label details in
  truthy label && useLabels && negb (includesStr ignoreLabels (templ label)).

(* ================================================================= *)
(** ** Vocabulary of the properties *)

(** The literal leaf of one allowed value of a basic node, in the words of
    the specification: a string value between single quotes, any other
    value, [null] included, as a bare token. *)
Definition literalLeaf (v : JValue) : TypeContent :=
  match v with
  | JStr s => leaf ("'" ++ s ++ "'")
  | JNull => leaf "null"
  | JBool true => leaf "true"
  | JBool false => leaf "false"
  | JNum printed => leaf printed
  | JOther printed => leaf printed
  end.

Definition startsWithNull (values : list JValue) : bool :=
  match values with
  | JNull :: _ => true
  | _ => false
  end.

Definition basicTypes : list string := ["any"; "boolean"; "date"; "number"].

(** The description node [array(items=[alternatives(matches=[string, number])])]. *)
Definition arrayOfStringOrNumber : Describe :=
  mkDescribe "array" None None
    (Some [mkDescribe "alternatives" None None None None
             (Some [Some (mkDescribe "string" None None None None None);
                    Some (mkDescribe "number" None None None None None)])])
    None None.

(** The description trees on which the parser reads no property of
    [undefined]: an array node has no empty [items], an alternatives node
    has its [matches] and each of them has its [schema]. *)
Fixpoint wellFormed (d : Describe) : bool :=
  match d with
  | mkDescribe ty _ _ its ks ms =>
      (if ty =? "array" then
         match its with
         | Some [] => false
         | Some (item :: _) => wellFormed item
         | None => true
         end
       else true)
      && (if ty =? "alternatives" then
            match ms with
            | Some l =>
                forallb (fun m => match m with
                                  | Some schema => wellFormed schema
                                  | None => false
                                  end) l
            | None => false
            end
          else true)
      && (if ty =? "object" then
            match ks with
            | Some l => forallb (fun entry => wellFormed (snd entry)) l
            | None => true
            end
          else true)
  end.

(** The number of nested calls of [parseSchema] a description tree asks
    for, the cast [any] item of an array without [items] included. *)
Fixpoint depth (d : Describe) : nat :=
  match d with
  | mkDescribe ty _ _ its ks ms =>
      S (Nat.max
           (match its with
            | Some l => list_max (map depth l)
            | None => if ty =? "array" then 1 else 0
            end)
           (Nat.max
              (match ks with
               | Some l => list_max (map (fun entry => depth (snd entry)) l)
               | None => 0
               end)
              (match ms with
               | Some l =>
                   list_max (map (fun m => match m with
                                           | Some schema => depth schema
                                           | None => 0
                                           end) l)
               | None => 0
               end)))
  end.

(** The trees the renderer accepts without export: every composite has one
    of the three join operations, and a [list] has exactly one child. *)
Fixpoint renderable (t : TypeContent) : bool :=
  match t with
  | TypeContentChild _ _ => true
  | TypeContentRoot j ch _ =>
      ((j =? "list") && (length ch =? 1)%nat || (j =? "union") || (j =? "object"))
      && forallb renderable ch
  end.

(** [Survivors f l bs]: every element of [l] is mapped by [f] without an
    exception, and [bs] lists, in order, the results that are not nothing. *)
Inductive Survivors {A B : Type} (f : A -> result (option B))
    : list A -> list B -> Prop :=
| Survivors_nil : Survivors f [] []
| Survivors_skip (a : A) (l : list A) (bs : list B) :
    f a = Ok None -> Survivors f l bs -> Survivors f (a :: l) bs
| Survivors_keep (a : A) (b : B) (l : list A) (bs : list B) :
    f a = Ok (Some b) -> Survivors f l bs -> Survivors f (a :: l) (b :: bs).

(** The ignore-label list an alternatives node hands to its matches. *)
Definition ownLabel (d : Describe) : list string :=
  match flag Flags.label d with
  | Some l => if l =? EmptyString then [] else [l]
  | None => []
  end.

(** Property [a] may stand before property [b]: both are named and the name
    of [a] is not greater than that of [b] in the three-way comparison. *)
Definition nameLe (a b : TypeContent) : Prop :=
  exists na nb, name (baseOf a) = Some na /\ name (baseOf b) = Some nb
                /\ String.compare na nb <> Gt.

(** The index-signature line of a rendered interface body. *)
Definition indexSignature : string := "[x: string]: any;".

(** The match parser of [parseAlternatives]: [parseSchema(match.schema, ...)],
    which reads [flags] of [undefined] when the match has no [schema]. *)
Definition parseMatch
    (self : Describe -> Settings -> bool -> list string -> result (option TypeContent))
    (settings : Settings) (ignoreLabels : list string) (m : option Describe)
    : result (option TypeContent) :=
  match m with
  | Some schema => self schema settings true ignoreLabels
  | None => Throw (TypeError "Cannot read property 'flags' of undefined")
  end.

(** The entry parser of [parseObjects]. *)
Definition parseEntry
    (self : Describe -> Settings -> bool -> list string -> result (option TypeContent))
    (settings : Settings) (entry : string * Describe) : result (option TypeContent) :=
  let '(key, value) := entry in
  parsedSchema <- self value settings true [] ;;
  match parsedSchema with
  | None => Ok None
  | Some parsedSchema =>
      Ok (Some (setName parsedSchema
                  (if isIdentifier key then key else "'" ++ key ++ "'")))
  end.

(** The children of a parsed object: the parsed entries, the catch-all
    property when [flags.unknown] is [true], sorted when the settings ask. *)
Definition arrange (d : Describe) (s : Settings) (kids : list TypeContent)
    : list TypeContent :=
  let children :=
    match flag Flags.unknown d with
    | Some true => (kids ++ [unknownProperty])%list
    | _ => kids
    end in
  if sortPropertiesByName s then sortBy compareByName children else children.

(** The line of one property in an interface body: the function mapped over
    the children in the [object] case of the renderer. *)
Definition propertyLine (ce : bool) (indentLevel : nat) (child : TypeContent)
    : result string :=
  childInfo <- typeContentToTsHelper ce child false (indentLevel + 1) ;;
  let descriptionStr :=
    getDescriptionStr ce (name (baseOf child)) (snd childInfo) (indentLevel + 1) in
  let optionalStr :=
    match required (baseOf child) with
    | Some true => EmptyString
    | _ => "?"
    end in
  Ok (descriptionStr ++ "  " ++ getIndentStr indentLevel
        ++ templ (name (baseOf child)) ++ optionalStr ++ ": "
        ++ tsContent childInfo ++ ";").

(** [exportable doExport t]: export is not requested, or the node is named. *)
Definition exportable (doExport : bool) (t : TypeContent) : bool :=
  negb (doExport && negb (truthy (name (baseOf t)))).

(** A node that has a name. *)
Definition named (t : TypeContent) : Prop := exists n, name (baseOf t) = Some n.

(** Induction on [TypeContent] with the hypothesis on every child. *)
Section NestedInduction.

Variable P : TypeContent -> Prop.
Hypothesis P_leaf : forall content b, P (TypeContentChild content b).
Hypothesis P_root :
  forall j ch b, Forall P ch -> P (TypeContentRoot j ch b).

Fixpoint TypeContent_nested_ind (t : TypeContent) : P t :=
  match t with
  | TypeContentChild content b => P_leaf content b
  | TypeContentRoot j ch b =>
      P_root j ch b
        ((fix all (l : list TypeContent) : Forall P l :=
            match l with
            | [] => Forall_nil P
            | c :: rest => Forall_cons c (TypeContent_nested_ind c) (all rest)
            end) ch)
  end.

End NestedInduction.

(** The token of an allowed value of a basic node: a string between single
    quotes, any other value as a template literal prints it. *)
Definition literalText (v : JValue) : string :=
  match v with
  | JStr s => "'" ++ s ++ "'"
  | _ => templValue v
  end.

(** The token of an allowed value of a string node: [null] bare, any other
    value between single quotes. *)
Definition stringLiteralText (v : JValue) : string :=
  match v with
  | JNull => "null"
  | _ => "'" ++ templValue v ++ "'"
  end.

(** The two allowed values of a string node that restrict nothing. *)
Definition trivialAllow (v : JValue) : bool :=
  match v with
  | JNull => true
  | JStr s => s =? EmptyString
  | _ => false
  end.

(** The name a key is given as a property. *)
Definition propertyName (key : string) : string :=
  if isIdentifier key then key else "'" ++ key ++ "'".

(** The labels met in a description tree. *)
Fixpoint labelsOf (d : Describe) : list string :=
  match d with
  | mkDescribe _ fl _ its ks ms =>
      (match fl with
       | Some f => match Flags.label f with Some l => [l] | None => [] end
       | None => []
       end
       ++ match its with
          | Some l => flat_map labelsOf l
          | None => []
          end
       ++ match ks with
          | Some l => flat_map (fun entry => labelsOf (snd entry)) l
          | None => []
          end
       ++ match ms with
          | Some l =>
              flat_map (fun m => match m with
                                 | Some schema => labelsOf schema
                                 | None => []
                                 end) l
          | None => []
          end)%list
  end.

(** The catch-all property, when [flags.unknown] is [true]. *)
Definition catchAll (d : Describe) : list TypeContent :=
  match flag Flags.unknown d with
  | Some true => [unknownProperty]
  | _ => []
  end.

(** The entries of an object node: its [keys], none when they are missing. *)
Definition entriesOf (d : Describe) : list (string * Describe) :=
  match keys d with
  | Some ks => ks
  | None => []
  end.

(** The name of a node. *)
Definition nameOf (t : TypeContent) : option string := name (baseOf t).

(* ================================================================= *)
(** * Facts on strings *)

Lemma append_assoc (a b c : string) : (a ++ b) ++ c = a ++ (b ++ c).
Proof.
  induction a as [|ch a IH]; simpl; [reflexivity | now rewrite IH].
Qed.

Lemma append_nil_r (a : string) : a ++ EmptyString = a.
Proof.
  induction a as [|ch a IH]; simpl; [reflexivity | now rewrite IH].
Qed.

(* ================================================================= *)
(** * Properties of the renderer *)

Lemma truthy_some (n : string) : n <> EmptyString -> truthy (Some n) = true.
Proof.
  intros Hn. simpl. apply negb_true_iff. now apply String.eqb_neq.
Qed.

Lemma helper_leaf (ce : bool) (content : string) (b : BaseTypeContent)
    (doExport : bool) (indentLevel : nat) :
  typeContentToTsHelper ce (TypeContentChild content b) doExport indentLevel
  = Ok (content, description b).
Proof. reflexivity. Qed.

Lemma helper_object (ce : bool) (ch : list TypeContent) (b : BaseTypeContent)
    (doExport : bool) (indentLevel : nat) :
  typeContentToTsHelper ce (TypeContentRoot "object" ch b) doExport indentLevel
  = if doExport && negb (truthy (name b))
    then Throw (NeedsName (TypeContentRoot "object" ch b))
    else if (length ch =? 0)%nat && negb doExport then Ok ("object", description b)
    else
      objectStr <-
        (if negb (length ch =? 0)%nat then
           lines <- mapE (propertyLine ce indentLevel) ch ;;
           Ok ("{" ++ nl ++ join nl lines ++ nl ++ getIndentStr indentLevel ++ "}")
         else Ok "{}") ;;
      if doExport then
        Ok ("export interface " ++ templ (name b) ++ " " ++ objectStr, description b)
      else Ok (objectStr, description b).
Proof. reflexivity. Qed.

Lemma helper_union (ce : bool) (ch : list TypeContent) (b : BaseTypeContent)
    (doExport : bool) (indentLevel : nat) :
  typeContentToTsHelper ce (TypeContentRoot "union" ch b) doExport indentLevel
  = if doExport && negb (truthy (name b))
    then Throw (NeedsName (TypeContentRoot "union" ch b))
    else
      childrenContent <-
        mapE (fun child =>
                r <- typeContentToTsHelper ce child false 0 ;; Ok (tsContent r)) ch ;;
      if doExport then
        Ok ("export type " ++ templ (name b) ++ " = "
              ++ join " | " childrenContent ++ ";", description b)
      else Ok (join " | " childrenContent, description b).
Proof. reflexivity. Qed.

Lemma helper_list (ce : bool) (ch : list TypeContent) (b : BaseTypeContent)
    (doExport : bool) (indentLevel : nat) :
  typeContentToTsHelper ce (TypeContentRoot "list" ch b) doExport indentLevel
  = if doExport && negb (truthy (name b))
    then Throw (NeedsName (TypeContentRoot "list" ch b))
    else
      childrenContent <-
        mapE (fun child => typeContentToTsHelper ce child false 0) ch ;;
      if (1 <? length childrenContent)%nat then Throw MultipleArrayItems
      else
        match childrenContent with
        | [] => Throw (TypeError "Cannot read property 'tsContent' of undefined")
        | first :: _ =>
            let content := tsContent first in
            let content :=
              if includes content "|" then "(" ++ content ++ ")" else content in
            if doExport then
              Ok ("export type " ++ templ (name b) ++ " = " ++ (content ++ "[]") ++ ";",
                  description b)
            else Ok (content ++ "[]", description b)
        end.
Proof. reflexivity. Qed.

(** C1, as the code has it: exporting a composite whose name is absent or
    empty throws the needs-a-name error, whatever its join operation and
    children, from the helper and from the entry point alike; a leaf is
    returned as its content before the name is looked at, export requested
    or not. *)
Theorem export_unnamed_composite_throws :
  forall (ce : bool) (joinOperation : string) (children : list TypeContent)
         (b : BaseTypeContent) (indentLevel : nat),
    truthy (name b) = false ->
    let node := TypeContentRoot joinOperation children b in
    typeContentToTsHelper ce node true indentLevel = Throw (NeedsName node)
    /\ typeContentToTs ce node true = Throw (NeedsName node)
    /\ forall content, typeContentToTsHelper ce (TypeContentChild content b) true
                         indentLevel = Ok (content, description b).
Proof.
  intros ce j ch b indent Hname node.
  assert (Hhelper : forall i, typeContentToTsHelper ce node true i
                              = Throw (NeedsName node)).
  { intros i. subst node. simpl. rewrite Hname. reflexivity. }
  split; [apply Hhelper|]. split.
  - unfold typeContentToTs. rewrite Hhelper. reflexivity.
  - intros content. apply helper_leaf.
Qed.

Lemma export_unnamed_composite_throws_witness :
  let node := TypeContentRoot "union" [leaf "string"] (mkBase (Some EmptyString) None None None) in
  typeContentToTsHelper false node true 0 = Throw (NeedsName node)
  /\ typeContentToTs false node true = Throw (NeedsName node)
  /\ forall content,
       typeContentToTsHelper false
         (TypeContentChild content (mkBase (Some EmptyString) None None None)) true 0
       = Ok (content, None).
Proof.
  apply (export_unnamed_composite_throws false "union" [leaf "string"]
           (mkBase (Some EmptyString) None None None) 0).
  reflexivity.
Defined.

(** C1, as the specification words it, fails: an unnamed leaf rendered with
    export requested is not fatal. *)
Lemma export_unnamed_leaf_not_fatal :
  ~ (forall (ce : bool) (t : TypeContent) (indentLevel : nat),
       truthy (name (baseOf t)) = false ->
       exists e, typeContentToTsHelper ce t true indentLevel = Throw e).
Proof.
  intros H.
  destruct (H false (leaf "string") 0 eq_refl) as [e He].
  discriminate He.
Qed.

(** C10: an exported [object] composite without children renders as
    [export interface <name> {}]; among the renderings of [object]
    composites, the placeholder [object] is that of the one without
    children that is not exported, and only that. *)
Theorem empty_object_rendering :
  forall (ce : bool) (b : BaseTypeContent) (indentLevel : nat) (n : string),
    name b = Some n -> n <> EmptyString ->
    typeContentToTsHelper ce (TypeContentRoot "object" [] b) true indentLevel
    = Ok ("export interface " ++ n ++ " {}", description b)
    /\ typeContentToTsHelper ce (TypeContentRoot "object" [] b) false indentLevel
       = Ok ("object", description b)
    /\ forall children b' doExport indentLevel' r,
         typeContentToTsHelper ce (TypeContentRoot "object" children b') doExport
           indentLevel' = Ok r ->
         (tsContent r = "object" <-> children = [] /\ doExport = false).
Proof.
  intros ce b indent n Hn Hne.
  assert (Ht : truthy (name b) = true) by (rewrite Hn; now apply truthy_some).
  split; [|split].
  - rewrite helper_object, Ht, Hn. reflexivity.
  - reflexivity.
  - intros children b' doExport indent' r H.
    rewrite helper_object in H.
    destruct (doExport && negb (truthy (name b'))); [discriminate H|].
    destruct children as [|c cs].
    + destruct doExport; cbn in H; injection H as <-; cbn [tsContent fst].
      * split; [discriminate | intros [_ ?]; discriminate].
      * split; auto.
    + split; [|intros [? _]; discriminate].
      intros Hobj. exfalso.
      cbn [length Nat.eqb andb negb] in H.
      destruct (mapE (propertyLine ce indent') (c :: cs)) as [lines|e];
        [|discriminate H].
      cbn [bind] in H.
      destruct doExport; injection H as <-; discriminate Hobj.
Qed.

Lemma empty_object_rendering_witness :
  typeContentToTsHelper false
    (TypeContentRoot "object" [] (mkBase (Some "Job") None None None)) true 0
  = Ok ("export interface Job {}", None).
Proof.
  apply (empty_object_rendering false (mkBase (Some "Job") None None None) 0 "Job");
    [reflexivity | discriminate].
Defined.

(* ================================================================= *)
(** * Properties of the parser *)

(** [parseSchema] on a node whose label does not short-circuit and whose
    type is supported: the shape parser runs and the common details are
    written over its result. *)
Lemma parseSchema_dispatch (stack : nat) (d : Describe) (s : Settings)
    (useLabels : bool) (ignoreLabels : list string) :
  labelShortCircuit d useLabels ignoreLabels = false ->
  includesStr supportedJoiTypes (type d) = true ->
  parseSchema (S stack) d s useLabels ignoreLabels
  = (parsedSchema <-
       (if type d =? "array" then parseArray (parseSchema stack) d s
        else if type d =? "string" then parseStringSchema d s
        else if type d =? "alternatives" then parseAlternatives (parseSchema stack) d s
        else if type d =? "object" then parseObjects (parseSchema stack) d s
        else parseBasicSchema d s) ;;
     match parsedSchema with
     | None => Ok None
     | Some t =>
         Ok (Some (withBase t
                     (mkBase (flag Flags.label d) (customTypes (baseOf t))
                        (Some (snd (getCommonDetails d s)))
                        (flag Flags.description d))))
     end).
Proof.
  intros Hsc Hsup. cbn [parseSchema]. unfold parseSchemaBody.
  unfold labelShortCircuit in Hsc. unfold getCommonDetails at 1.
  rewrite Hsc, Hsup. reflexivity.
Qed.

(** C5: a basic node with a non-empty [allow] list parses to a [union]
    composite whose children are the plain base-type leaf exactly when the
    first allowed value is [null], then one literal leaf per allowed value,
    in order; [parseSchema] keeps these children. *)
Theorem parseBasicSchema_allow_union :
  forall (d : Describe) (s : Settings) (values : list JValue),
    allow d = Some values -> values <> [] ->
    let base := if type d =? "date" then "Date" else type d in
    let kids := ((if startsWithNull values then [leaf base] else [])
                 ++ map literalLeaf values)%list in
    parseBasicSchema d s
    = Ok (Some (TypeContentRoot "union" kids
                  (mkBase (flag Flags.label d) None None (flag Flags.description d))))
    /\ forall stack useLabels ignoreLabels,
         includesStr basicTypes (type d) = true ->
         labelShortCircuit d useLabels ignoreLabels = false ->
         parseSchema (S stack) d s useLabels ignoreLabels
         = Ok (Some (TypeContentRoot "union" kids
                       (mkBase (flag Flags.label d) None
                          (Some (snd (getCommonDetails d s)))
                          (flag Flags.description d)))).
Proof.
  intros d s values Hallow Hne base kids.
  assert (Hmap : map (fun value =>
                        leaf (if isJsString value then "'" ++ templValue value ++ "'"
                              else templValue value)) values
                 = map literalLeaf values).
  { apply map_ext. intros [|[]| | |]; reflexivity. }
  assert (Hbasic : parseBasicSchema d s
                   = Ok (Some (TypeContentRoot "union" kids
                                 (mkBase (flag Flags.label d) None None
                                    (flag Flags.description d))))).
  { unfold parseBasicSchema, getCommonDetails. rewrite Hallow.
    destruct values as [|v vs]; [congruence|].
    cbn [length Nat.eqb negb nth_error]. rewrite Hmap.
    subst kids base. unfold makeTypeContentRoot.
    destruct v as [|[]| | |]; reflexivity. }
  split; [exact Hbasic|].
  intros stack useLabels ignoreLabels Htype Hsc.
  rewrite parseSchema_dispatch; auto.
  - assert (Hty : type d = "any" \/ type d = "boolean" \/ type d = "date"
                  \/ type d = "number").
    { unfold includesStr, basicTypes in Htype. cbn [existsb] in Htype.
      repeat (apply orb_true_iff in Htype; destruct Htype as [Htype|Htype]);
        try discriminate; apply String.eqb_eq in Htype; auto. }
    destruct Hty as [E|[E|[E|E]]]; rewrite E in *; cbn [String.eqb Ascii.eqb Bool.eqb];
      rewrite <- ?E; rewrite Hbasic; reflexivity.
  - unfold includesStr, basicTypes, supportedJoiTypes in *. cbn [existsb] in *.
    repeat (apply orb_true_iff in Htype; destruct Htype as [Htype|Htype]);
      try discriminate; rewrite Htype; repeat rewrite orb_true_r; reflexivity.
Qed.

Lemma parseBasicSchema_allow_union_witness :
  parseBasicSchema
    (mkDescribe "number" None (Some [JNull; JNum "1e+21"; JStr "a"]) None None None)
    (mkSettings true true false)
  = Ok (Some (TypeContentRoot "union"
                [leaf "number"; leaf "null"; leaf "1e+21"; leaf "'a'"]
                (mkBase None None None None)))
  /\ parseSchema 1
       (mkDescribe "number" None (Some [JNull; JNum "1e+21"; JStr "a"]) None None None)
       (mkSettings true true false) true []
     = Ok (Some (TypeContentRoot "union"
                   [leaf "number"; leaf "null"; leaf "1e+21"; leaf "'a'"]
                   (mkBase None None (Some true) None))).
Proof.
  destruct (parseBasicSchema_allow_union
              (mkDescribe "number" None (Some [JNull; JNum "1e+21"; JStr "a"]) None None None)
              (mkSettings true true false) [JNull; JNum "1e+21"; JStr "a"])
    as [Hshape Hparse]; [reflexivity | discriminate |].
  split; [exact Hshape | apply (Hparse 0 true []); reflexivity].
Defined.

(** C4: a string node whose [allow] list is the empty string alone parses
    to the plain [string] leaf, and that leaf renders as [string]: the
    list leaves no trace. *)
Theorem parseStringSchema_only_empty_string :
  forall (stack : nat) (d : Describe) (s : Settings) (useLabels : bool)
         (ignoreLabels : list string),
    type d = "string" ->
    allow d = Some [JStr EmptyString] ->
    labelShortCircuit d useLabels ignoreLabels = false ->
    let t := TypeContentChild "string"
               (mkBase (flag Flags.label d) None
                  (Some (snd (getCommonDetails d s))) (flag Flags.description d)) in
    parseSchema (S stack) d s useLabels ignoreLabels = Ok (Some t)
    /\ forall ce doExport indentLevel,
         typeContentToTsHelper ce t doExport indentLevel
         = Ok ("string", flag Flags.description d).
Proof.
  intros stack d s useLabels ignoreLabels Htype Hallow Hsc t.
  split; [|reflexivity].
  rewrite parseSchema_dispatch; auto.
  - rewrite Htype. cbn [String.eqb Ascii.eqb Bool.eqb].
    unfold parseStringSchema, getCommonDetails. rewrite Hallow. reflexivity.
  - rewrite Htype. reflexivity.
Qed.

Lemma parseStringSchema_only_empty_string_witness :
  parseSchema 1 (mkDescribe "string" None (Some [JStr EmptyString]) None None None)
    (mkSettings false true false) true []
  = Ok (Some (TypeContentChild "string" (mkBase None None (Some false) None)))
  /\ typeContentToTsHelper false
       (TypeContentChild "string" (mkBase None None (Some false) None)) false 0
     = Ok ("string", None).
Proof.
  destruct (parseStringSchema_only_empty_string 0
              (mkDescribe "string" None (Some [JStr EmptyString]) None None None)
              (mkSettings false true false) true [])
    as [Hparse Hrender]; [reflexivity | reflexivity | reflexivity |].
  split; [exact Hparse | apply (Hrender false false 0)].
Defined.

(** [parseArray] when [items] is missing: the item is the cast [any] node,
    and the array parses to a [list] of the [any] leaf. *)
Lemma parseArray_items_absent (stack : nat) (d : Describe) (s : Settings)
    (useLabels : bool) (ignoreLabels : list string) :
  type d = "array" ->
  items d = None ->
  labelShortCircuit d useLabels ignoreLabels = false ->
  parseSchema (S (S stack)) d s useLabels ignoreLabels
  = Ok (Some (TypeContentRoot "list"
                [TypeContentChild "any"
                   (mkBase None None (Some (defaultToRequired s)) None)]
                (mkBase (flag Flags.label d) None
                   (Some (snd (getCommonDetails d s))) (flag Flags.description d)))).
Proof.
  intros Htype Hitems Hsc.
  rewrite parseSchema_dispatch; auto.
  - rewrite Htype. cbn [String.eqb Ascii.eqb Bool.eqb].
    unfold parseArray. rewrite Hitems. reflexivity.
  - rewrite Htype. reflexivity.
Qed.

(** C2, at the failing input: on an array node whose [items] is the empty
    array, [details.items] is truthy, [details.items[0]] is [undefined], and
    the recursive [parseSchema] throws a TypeError on reading its [flags];
    no [any] item is synthesized. *)
Theorem parseArray_empty_items_throws :
  forall (stack : nat) (s : Settings) (useLabels : bool)
         (ignoreLabels : list string),
    parseSchema (S stack) (mkDescribe "array" None None (Some []) None None) s
      useLabels ignoreLabels
    = Throw (TypeError "Cannot read property 'flags' of undefined").
Proof.
  intros stack s useLabels ignoreLabels.
  rewrite parseSchema_dispatch; reflexivity.
Qed.

(** C3: a [list] composite whose single child renders to a text holding the
    union operator renders as that text between parentheses followed by
    [[]]; and the array of the alternatives of string and number parses and
    renders to [(string | number)[]]. *)
Theorem list_of_union_parenthesized :
  (forall (ce : bool) (child : TypeContent) (b : BaseTypeContent)
          (text : string) (descr : option string) (doExport : bool)
          (indentLevel : nat),
      typeContentToTsHelper ce child false 0 = Ok (text, descr) ->
      includes text "|" = true ->
      exportable doExport (TypeContentRoot "list" [child] b) = true ->
      typeContentToTsHelper ce (TypeContentRoot "list" [child] b) doExport indentLevel
      = Ok (if doExport
            then "export type " ++ templ (name b) ++ " = (" ++ text ++ ")[];"
            else "(" ++ text ++ ")[]",
            description b))
  /\ (forall (stack : nat) (s : Settings) (useLabels : bool)
             (ignoreLabels : list string),
        exists t,
          parseSchema (3 + stack) arrayOfStringOrNumber s useLabels ignoreLabels
          = Ok (Some t)
          /\ (forall ce indentLevel,
                typeContentToTsHelper ce t false indentLevel
                = Ok ("(string | number)[]", None))
          /\ typeContentToTs false t false = Ok "(string | number)[]").
Proof.
  split.
  - intros ce child b text descr doExport indent Hchild Hincl Hexp.
    unfold exportable in Hexp. cbn [baseOf] in Hexp. apply negb_true_iff in Hexp.
    rewrite helper_list, Hexp. cbn [mapE]. rewrite Hchild.
    cbn [bind length Nat.ltb Nat.leb tsContent fst]. rewrite Hincl. cbv zeta.
    destruct doExport; cbn [append]; rewrite !append_assoc; reflexivity.
  - intros stack [req sort ce0] useLabels ignoreLabels.
    eexists. split; [|split].
    + destruct req; vm_compute; reflexivity.
    + intros ce indent. destruct req; reflexivity.
    + destruct req; reflexivity.
Qed.

Lemma list_of_union_parenthesized_witness :
  typeContentToTsHelper false
    (TypeContentRoot "list"
       [TypeContentRoot "union" [leaf "A"; leaf "B"] (mkBase None None None None)]
       (mkBase (Some "AB") None None None)) true 0
  = Ok ("export type AB = (A | B)[];", None).
Proof.
  destruct list_of_union_parenthesized as [Hparen _].
  apply (Hparen false
           (TypeContentRoot "union" [leaf "A"; leaf "B"] (mkBase None None None None))
           (mkBase (Some "AB") None None None) "A | B" None true 0);
    reflexivity.
Defined.

(* ================================================================= *)
(** * Facts on substrings, maps that may throw, and sorting *)

Lemma includes_prefix (s sub : string) :
  String.prefix sub s = true -> includes s sub = true.
Proof.
  intros H. destruct s; cbn [includes]; now rewrite H.
Qed.

Lemma prefix_nil (s : string) : String.prefix EmptyString s = true.
Proof. now destruct s. Qed.

Lemma prefix_append_r (sub s post : string) :
  String.prefix sub s = true -> String.prefix sub (s ++ post) = true.
Proof.
  revert s. induction sub as [|a sub IH]; intros s H; [apply prefix_nil|].
  destruct s as [|c s]; [discriminate H|].
  change (String c s ++ post) with (String c (s ++ post)).
  cbn [String.prefix] in *.
  destruct (ascii_dec a c); [now apply IH | discriminate H].
Qed.

Lemma includes_append_r (s sub post : string) :
  includes s sub = true -> includes (s ++ post) sub = true.
Proof.
  induction s as [|c s IH]; intros H.
  - apply includes_prefix. cbn [includes] in H.
    destruct (String.prefix sub EmptyString) eqn:Hp; [|discriminate H].
    now apply (prefix_append_r sub EmptyString post).
  - cbn [includes] in H.
    change (String c s ++ post) with (String c (s ++ post)). cbn [includes].
    destruct (String.prefix sub (String c s)) eqn:Hp.
    + pose proof (prefix_append_r sub (String c s) post Hp) as Hq.
      change (String c s ++ post) with (String c (s ++ post)) in Hq.
      now rewrite Hq.
    + rewrite (IH H). destruct (String.prefix sub (String c (s ++ post))); reflexivity.
Qed.

Lemma includes_append_l (pre s sub : string) :
  includes s sub = true -> includes (pre ++ s) sub = true.
Proof.
  intros H. induction pre as [|c pre IH]; [exact H|].
  change (String c pre ++ s) with (String c (pre ++ s)).
  cbn [includes]. rewrite IH. now destruct (String.prefix _ _).
Qed.

Lemma join_In (sep x : string) (l : list string) :
  In x l -> exists pre post, join sep l = pre ++ x ++ post.
Proof.
  unfold join. induction l as [|y l IH]; intros Hin; [destruct Hin|].
  destruct Hin as [->|Hin].
  - destruct l as [|z l].
    + exists EmptyString, EmptyString. cbn [String.concat]. symmetry. apply append_nil_r.
    + exists EmptyString, (sep ++ String.concat sep (z :: l)). reflexivity.
  - destruct (IH Hin) as (pre & post & E).
    destruct l as [|z l]; [destruct Hin|].
    exists (y ++ sep ++ pre), post.
    cbn [String.concat]. cbn [String.concat] in E. rewrite E.
    now rewrite !append_assoc.
Qed.

Section MapFacts.

Context {A B : Type}.

Lemma mapE_total (f : A -> result B) (l : list A) :
  (forall a, In a l -> exists b, f a = Ok b) -> exists bs, mapE f l = Ok bs.
Proof.
  induction l as [|a l IH]; intros H.
  - now exists [].
  - destruct (H a (or_introl eq_refl)) as [b Hb].
    destruct IH as [bs Hbs]; [intros x Hx; apply H; now right|].
    exists (b :: bs). cbn [mapE]. fold (mapE f). now rewrite Hb, Hbs.
Qed.

Lemma mapE_In (f : A -> result B) (l : list A) (bs : list B) (a : A) :
  mapE f l = Ok bs -> In a l -> exists b, f a = Ok b /\ In b bs.
Proof.
  revert bs. induction l as [|x l IH]; intros bs H Hin; [destruct Hin|].
  cbn [mapE] in H. fold (mapE f) in H.
  destruct (f x) as [b|e] eqn:Hx; [|discriminate H].
  destruct (mapE f l) as [bs'|e] eqn:Hl; [|discriminate H].
  injection H as <-.
  destruct Hin as [->|Hin].
  - exists b. split; [exact Hx | now left].
  - destruct (IH bs' eq_refl Hin) as (b' & Hb' & Hin'). exists b'. split; [exact Hb' | now right].
Qed.

Lemma filterMap_Survivors (f : A -> result (option B)) (l : list A) (bs : list B) :
  filterMap f l = Ok bs <-> Survivors f l bs.
Proof.
  split.
  - revert bs. induction l as [|a l IH]; intros bs H.
    + injection H as <-. constructor.
    + cbn [filterMap] in H. fold (filterMap f) in H.
      destruct (f a) as [r|e] eqn:Ha; [|discriminate H].
      destruct (filterMap f l) as [bs'|e] eqn:Hl; [|discriminate H].
      destruct r as [b|]; injection H as <-.
      * apply Survivors_keep; auto.
      * apply Survivors_skip; auto.
  - induction 1 as [|a l bs Ha _ IH|a b l bs Ha _ IH];
      [reflexivity | |]; cbn [filterMap]; fold (filterMap f);
      rewrite Ha, IH; reflexivity.
Qed.

Lemma Survivors_total (f : A -> result (option B)) (l : list A) :
  (forall a, In a l -> exists r, f a = Ok r) -> exists bs, Survivors f l bs.
Proof.
  induction l as [|a l IH]; intros H.
  - exists []. constructor.
  - destruct IH as [bs Hbs]; [intros x Hx; apply H; now right|].
    destruct (H a (or_introl eq_refl)) as [[b|] Ha].
    + exists (b :: bs). now apply Survivors_keep.
    + exists bs. now apply Survivors_skip.
Qed.

Lemma Survivors_Forall (f : A -> result (option B)) (P : B -> Prop)
    (l : list A) (bs : list B) :
  (forall a b, In a l -> f a = Ok (Some b) -> P b) ->
  Survivors f l bs -> Forall P bs.
Proof.
  intros H Hs. induction Hs as [|a l bs Ha _ IH|a b l bs Ha _ IH].
  - constructor.
  - apply IH. intros x y Hx. apply H. now right.
  - constructor.
    + apply (H a b); [now left | exact Ha].
    + apply IH. intros x y Hx. apply H. now right.
Qed.

End MapFacts.

Section SortFacts.

Context {A : Type} (cmp : A -> A -> Z).

Lemma insertBy_In (a x : A) (l : list A) :
  In x (insertBy cmp a l) <-> x = a \/ In x l.
Proof.
  induction l as [|b l IH]; simpl.
  - intuition.
  - destruct (cmp a b <=? 0)%Z; simpl; [intuition|]. rewrite IH. intuition.
Qed.

Lemma sortBy_In (x : A) (l : list A) : In x (sortBy cmp l) <-> In x l.
Proof.
  induction l as [|a l IH]; simpl; [reflexivity|].
  rewrite insertBy_In, IH. intuition.
Qed.

Lemma sortBy_Forall (P : A -> Prop) (l : list A) :
  Forall P l -> Forall P (sortBy cmp l).
Proof.
  rewrite !Forall_forall. intros H x Hx. apply H. now apply sortBy_In.
Qed.

(** The comparator never puts two elements each after the other. *)
Hypothesis cmp_total : forall a b, (0 < cmp a b)%Z -> (cmp b a <= 0)%Z.

Lemma insertBy_Sorted (a : A) (l : list A) :
  Sorted (fun x y => (cmp x y <= 0)%Z) l ->
  Sorted (fun x y => (cmp x y <= 0)%Z) (insertBy cmp a l).
Proof.
  induction 1 as [|b l Hs IH Hhd]; simpl.
  - repeat constructor.
  - destruct (cmp a b <=? 0)%Z eqn:E.
    + apply Z.leb_le in E. repeat constructor; auto.
    + apply Z.leb_gt in E. constructor; [exact IH|].
      destruct l as [|c l]; simpl.
      * constructor. now apply cmp_total.
      * destruct (cmp a c <=? 0)%Z; constructor.
        -- now apply cmp_total.
        -- now inversion Hhd.
Qed.

Lemma sortBy_Sorted (l : list A) :
  Sorted (fun x y => (cmp x y <= 0)%Z) (sortBy cmp l).
Proof.
  induction l as [|a l IH]; simpl; [constructor | now apply insertBy_Sorted].
Qed.

End SortFacts.

(* ================================================================= *)
(** * The parser returns on well-formed trees *)

Lemma wellFormed_unfold (d : Describe) :
  wellFormed d
  = (if type d =? "array" then
       match items d with
       | Some [] => false
       | Some (item :: _) => wellFormed item
       | None => true
       end
     else true)
    && (if type d =? "alternatives" then
          match matches d with
          | Some l =>
              forallb (fun m => match m with
                                | Some schema => wellFormed schema
                                | None => false
                                end) l
          | None => false
          end
        else true)
    && (if type d =? "object" then
          match keys d with
          | Some l => forallb (fun entry => wellFormed (snd entry)) l
          | None => true
          end
        else true).
Proof. destruct d; reflexivity. Qed.

Lemma list_max_In (n : nat) (l : list nat) : In n l -> n <= list_max l.
Proof.
  intros Hin.
  assert (H : Forall (fun k => k <= list_max l) l) by now apply list_max_le.
  rewrite Forall_forall in H. now apply H.
Qed.

Lemma depth_items (d x : Describe) (l : list Describe) :
  items d = Some l -> In x l -> depth x < depth d.
Proof.
  destruct d as [ty fl al its ks ms]; simpl. intros -> Hin.
  pose proof (list_max_In (depth x) (map depth l) (in_map depth l x Hin)). lia.
Qed.

Lemma depth_matches (d x : Describe) (l : list (option Describe)) :
  matches d = Some l -> In (Some x) l -> depth x < depth d.
Proof.
  destruct d as [ty fl al its ks ms]; simpl. intros -> Hin.
  pose proof (list_max_In (depth x) _
                (in_map (fun m => match m with
                                  | Some schema => depth schema
                                  | None => 0
                                  end) l (Some x) Hin)). lia.
Qed.

Lemma depth_keys (d : Describe) (entry : string * Describe)
    (l : list (string * Describe)) :
  keys d = Some l -> In entry l -> depth (snd entry) < depth d.
Proof.
  destruct d as [ty fl al its ks ms]; simpl. intros -> Hin.
  pose proof (list_max_In (depth (snd entry)) _
                (in_map (fun e => depth (snd e)) l entry Hin)). lia.
Qed.

Lemma depth_no_items (d : Describe) :
  (type d =? "array") = true -> items d = None -> 2 <= depth d.
Proof.
  destruct d as [ty fl al its ks ms]; cbn [type items depth]. intros -> ->. lia.
Qed.

Lemma depth_pos (d : Describe) : 1 <= depth d.
Proof. destruct d; simpl; lia. Qed.

Lemma forallb_map_leaves {X : Type} (g : X -> TypeContent) (l : list X) :
  (forall x, renderable (g x) = true) -> forallb renderable (map g l) = true.
Proof.
  intros H. induction l as [|x l IH]; simpl; [reflexivity | now rewrite H, IH].
Qed.

Lemma parseStringSchema_ok (d : Describe) (s : Settings) :
  exists t, parseStringSchema d s = Ok (Some t) /\ renderable t = true.
Proof.
  unfold parseStringSchema, getCommonDetails.
  destruct (allow d) as [values|]; [|eexists; split; reflexivity].
  destruct (negb (length values =? 0)%nat); [|eexists; split; reflexivity].
  match goal with
  | |- context [if ?c then _ else _] => destruct c
  end; [eexists; split; reflexivity|].
  eexists; split; [reflexivity|].
  cbn [makeTypeContentRoot renderable].
  change ("union" =? "list") with false. change ("union" =? "union") with true.
  cbn [andb orb].
  match goal with
  | |- forallb renderable (if ?c then _ else _) = true => destruct c
  end; cbn [forallb leaf makeTypeContentChild renderable andb];
    apply forallb_map_leaves; intros v;
    match goal with
    | |- renderable (if ?c then _ else _) = true => destruct c; reflexivity
    end.
Qed.

Lemma parseBasicSchema_ok (d : Describe) (s : Settings) :
  exists t, parseBasicSchema d s = Ok (Some t) /\ renderable t = true.
Proof.
  unfold parseBasicSchema, getCommonDetails.
  destruct (allow d) as [values|]; [|eexists; split; reflexivity].
  destruct (negb (length values =? 0)%nat); [|eexists; split; reflexivity].
  eexists; split; [reflexivity|].
  cbn [makeTypeContentRoot renderable].
  change ("union" =? "list") with false. change ("union" =? "union") with true.
  cbn [andb orb].
  destruct (nth_error values 0) as [[| | | |]|];
    cbn [forallb leaf makeTypeContentChild renderable andb];
    apply forallb_map_leaves; intros v; reflexivity.
Qed.

(** [parseSchema] spelled out: the label short-circuit, the unsupported
    types, then the shape parser and the common details written over its
    result. *)
Lemma parseSchema_unfold (stack : nat) (d : Describe) (s : Settings)
    (useLabels : bool) (ignoreLabels : list string) :
  parseSchema (S stack) d s useLabels ignoreLabels
  = if labelShortCircuit d useLabels ignoreLabels then
      Ok (Some (makeTypeContentChild (templ (flag Flags.label d))
                  (Some [templ (flag Flags.label d)])
                  (Some (snd (getCommonDetails d s))) None
                  (flag Flags.description d)))
    else if negb (includesStr supportedJoiTypes (type d)) then Ok None
    else
      parsedSchema <-
        (if type d =? "array" then parseArray (parseSchema stack) d s
         else if type d =? "string" then parseStringSchema d s
         else if type d =? "alternatives" then parseAlternatives (parseSchema stack) d s
         else if type d =? "object" then parseObjects (parseSchema stack) d s
         else parseBasicSchema d s) ;;
      match parsedSchema with
      | None => Ok None
      | Some t =>
          Ok (Some (withBase t
                      (mkBase (flag Flags.label d) (customTypes (baseOf t))
                         (Some (snd (getCommonDetails d s)))
                         (flag Flags.description d))))
      end.
Proof. reflexivity. Qed.

Lemma bind_ok_total {X Y : Type} (m : result X) (k : X -> result Y) :
  (exists x, m = Ok x) -> (forall x, exists y, k x = Ok y) ->
  exists y, bind m k = Ok y.
Proof.
  intros [x ->] Hk. exact (Hk x).
Qed.

Theorem parseSchema_total (stack : nat) :
  forall (d : Describe) (s : Settings) (useLabels : bool)
         (ignoreLabels : list string),
    wellFormed d = true -> depth d <= stack ->
    exists r, parseSchema stack d s useLabels ignoreLabels = Ok r.
Proof.
  induction stack as [|stack IH]; intros d s useLabels ignoreLabels Hwf Hdepth.
  { pose proof (depth_pos d). lia. }
  rewrite parseSchema_unfold.
  destruct (labelShortCircuit d useLabels ignoreLabels); [eexists; reflexivity|].
  destruct (negb (includesStr supportedJoiTypes (type d))); [eexists; reflexivity|].
  apply bind_ok_total; [|intros [t|]; eexists; reflexivity].
  rewrite wellFormed_unfold in Hwf.
  apply andb_true_iff in Hwf. destruct Hwf as [Hwf Hobj].
  apply andb_true_iff in Hwf. destruct Hwf as [Harr Halt].
  destruct (type d =? "array") eqn:Tarr.
  { unfold parseArray. destruct (getCommonDetails d s) as [[lbl descr] req].
    destruct (items d) as [[|item rest]|] eqn:Hitems; [discriminate Harr | |].
    - cbn [nth_error].
      destruct (IH item s true [] Harr) as [[child|] Hc].
      + pose proof (depth_items d item _ Hitems (or_introl eq_refl)). lia.
      + rewrite Hc. eexists; reflexivity.
      + rewrite Hc. eexists; reflexivity.
    - destruct (IH anyDescribe s true [] eq_refl) as [[child|] Hc].
      + pose proof (depth_no_items d Tarr Hitems).
        change (depth anyDescribe) with 1. lia.
      + rewrite Hc. eexists; reflexivity.
      + rewrite Hc. eexists; reflexivity. }
  destruct (type d =? "string").
  { destruct (parseStringSchema_ok d s) as (t & -> & _). eexists; reflexivity. }
  destruct (type d =? "alternatives").
  { unfold parseAlternatives. destruct (getCommonDetails d s) as [[lbl descr] req].
    destruct (matches d) as [ms|] eqn:Hms; [|discriminate Halt].
    apply bind_ok_total.
    - rewrite forallb_forall in Halt.
      destruct (Survivors_total
                  (parseMatch (parseSchema stack) s
                     (if truthy lbl then [templ lbl] else [])) ms)
        as [kids Hkids].
      + intros [m|] Hm; pose proof (Halt _ Hm) as Hwm; [|discriminate Hwm].
        apply IH; [exact Hwm|].
        pose proof (depth_matches d m ms Hms Hm). lia.
      + exists kids. now apply filterMap_Survivors.
    - intros kids. destruct (length kids =? 0)%nat; eexists; reflexivity. }
  destruct (type d =? "object").
  { unfold parseObjects.
    apply bind_ok_total.
    - set (entries := match keys d with Some ks => ks | None => [] end).
      assert (Hentries : forall e, In e entries ->
                wellFormed (snd e) = true /\ depth (snd e) <= stack).
      { subst entries. destruct (keys d) as [ks|] eqn:Hks; [|intros e []].
        rewrite forallb_forall in Hobj. intros e He. split; [now apply Hobj|].
        pose proof (depth_keys d e ks Hks He). lia. }
      match goal with
      | |- exists x, filterMap ?f entries = Ok x =>
          destruct (Survivors_total f entries) as [kids Hkids]
      end.
      + intros [key value] He. destruct (Hentries _ He) as [Hw Hd].
        destruct (IH value s true [] Hw Hd) as [[t|] ->]; eexists; reflexivity.
      + exists kids. now apply filterMap_Survivors.
    - intros kids. destruct (getCommonDetails d s) as [[lbl descr] req].
      eexists; reflexivity. }
  destruct (parseBasicSchema_ok d s) as (t & -> & _). eexists; reflexivity.
Qed.

(* ================================================================= *)
(** * What the parser returns, the renderer accepts *)

Lemma renderable_withBase (t : TypeContent) (b : BaseTypeContent) :
  renderable (withBase t b) = renderable t.
Proof. destruct t; reflexivity. Qed.

Lemma forallb_Forall_renderable (l : list TypeContent) :
  Forall (fun t => renderable t = true) l -> forallb renderable l = true.
Proof.
  intros H. apply forallb_forall. now apply Forall_forall.
Qed.

Lemma parseEntry_some self (s : Settings) (entry : string * Describe)
    (t : TypeContent) :
  parseEntry self s entry = Ok (Some t) ->
  exists p n, self (snd entry) s true [] = Ok (Some p) /\ t = setName p n.
Proof.
  destruct entry as [key value]. unfold parseEntry. cbn [snd].
  destruct (self value s true []) as [[p|]|e]; cbn [bind]; try discriminate.
  intros H. injection H as <-. now exists p, (if isIdentifier key then key else "'" ++ key ++ "'").
Qed.

Lemma parseObjects_unfold self (d : Describe) (s : Settings) :
  parseObjects self d s
  = (children <- filterMap (parseEntry self s)
                   (match keys d with Some ks => ks | None => [] end) ;;
     Ok (Some (TypeContentRoot "object"
                 (let children :=
                    match flag Flags.unknown d with
                    | Some true => (children ++ [unknownProperty])%list
                    | _ => children
                    end in
                  if sortPropertiesByName s then sortBy compareByName children
                  else children)
                 (mkBase (flag Flags.label d) None None (flag Flags.description d))))).
Proof. reflexivity. Qed.

Lemma parseAlternatives_unfold self (d : Describe) (s : Settings) :
  parseAlternatives self d s
  = (children <-
       match matches d with
       | Some ms =>
           filterMap (parseMatch self s
                        (if truthy (flag Flags.label d)
                         then [templ (flag Flags.label d)] else []))
                     ms
       | None => Throw (TypeError "Cannot read property 'reduce' of undefined")
       end ;;
     if (length children =? 0)%nat then Ok None
     else Ok (Some (TypeContentRoot "union" children
                      (mkBase (flag Flags.label d) None None
                         (flag Flags.description d))))).
Proof. reflexivity. Qed.

Theorem parseSchema_renderable (stack : nat) :
  forall (d : Describe) (s : Settings) (useLabels : bool)
         (ignoreLabels : list string) (t : TypeContent),
    parseSchema stack d s useLabels ignoreLabels = Ok (Some t) ->
    renderable t = true.
Proof.
  induction stack as [|stack IH]; intros d s useLabels ignoreLabels t H;
    [discriminate H|].
  rewrite parseSchema_unfold in H.
  destruct (labelShortCircuit d useLabels ignoreLabels);
    [injection H as <-; reflexivity|].
  destruct (negb (includesStr supportedJoiTypes (type d))); [discriminate H|].
  match type of H with
  | bind ?m _ = _ => destruct m as [[t0|]|e] eqn:Hshape
  end; cbn [bind] in H; try discriminate H.
  injection H as <-. rewrite renderable_withBase.
  destruct (type d =? "array").
  { unfold parseArray in Hshape.
    destruct (getCommonDetails d s) as [[lbl descr] req].
    match type of Hshape with
    | bind ?m _ = _ => destruct m as [[child|]|e] eqn:Hchild
    end; cbn [bind] in Hshape; try discriminate Hshape.
    injection Hshape as <-.
    assert (Hr : renderable child = true).
    { destruct (match items d with Some its => nth_error its 0 | None => Some anyDescribe end);
        [now apply IH in Hchild | discriminate Hchild]. }
    cbn. now rewrite Hr. }
  destruct (type d =? "string").
  { destruct (parseStringSchema_ok d s) as (t1 & E & Hr). congruence. }
  destruct (type d =? "alternatives").
  { rewrite parseAlternatives_unfold in Hshape.
    match type of Hshape with
    | bind ?m _ = _ => destruct m as [kids|e] eqn:Hkids
    end; cbn [bind] in Hshape; try discriminate Hshape.
    destruct (length kids =? 0)%nat; [discriminate Hshape|].
    injection Hshape as <-.
    destruct (matches d) as [ms|]; [|discriminate Hkids].
    apply filterMap_Survivors in Hkids.
    cbn [renderable]. change ("union" =? "list") with false.
    change ("union" =? "union") with true. cbn [andb orb].
    apply forallb_Forall_renderable.
    eapply Survivors_Forall; [|exact Hkids].
    intros [m|] k _ Hm; [now apply IH in Hm | discriminate Hm]. }
  destruct (type d =? "object").
  { rewrite parseObjects_unfold in Hshape.
    match type of Hshape with
    | bind ?m _ = _ => destruct m as [kids|e] eqn:Hkids
    end; cbn [bind] in Hshape; try discriminate Hshape.
    injection Hshape as <-.
    apply filterMap_Survivors in Hkids.
    assert (Hk : Forall (fun t => renderable t = true) kids).
    { eapply Survivors_Forall; [|exact Hkids].
      intros e k _ He. apply parseEntry_some in He.
      destruct He as (p & n & Hp & ->). unfold setName.
      rewrite renderable_withBase. now apply IH in Hp. }
    cbn [renderable]. change ("object" =? "list") with false.
    change ("object" =? "union") with false. change ("object" =? "object") with true.
    cbn [andb orb]. apply forallb_Forall_renderable.
    assert (Hu : Forall (fun t => renderable t = true)
                   (match flag Flags.unknown d with
                    | Some true => (kids ++ [unknownProperty])%list
                    | _ => kids
                    end)).
    { destruct (flag Flags.unknown d) as [[|]|]; auto.
      apply Forall_app. split; [exact Hk | now repeat constructor]. }
    cbv zeta. destruct (sortPropertiesByName s); [now apply sortBy_Forall | exact Hu]. }
  destruct (parseBasicSchema_ok d s) as (t1 & E & Hr). congruence.
Qed.

(* ================================================================= *)
(** * The renderer returns on the trees it accepts *)

Theorem renderable_renders :
  forall (t : TypeContent),
    renderable t = true ->
    forall (ce doExport : bool) (indentLevel : nat),
      exportable doExport t = true ->
      exists text,
        typeContentToTsHelper ce t doExport indentLevel
        = Ok (text, description (baseOf t)).
Proof.
  induction t as [content b|j ch b IH] using TypeContent_nested_ind;
    intros Hr ce doExport indent Hexp.
  - eexists; reflexivity.
  - unfold exportable in Hexp. cbn [baseOf] in Hexp.
    apply negb_true_iff in Hexp.
    cbn [renderable] in Hr. apply andb_true_iff in Hr. destruct Hr as [Hj Hch].
    assert (Hkids : forall c, In c ch -> forall ce i,
               exists r, typeContentToTsHelper ce c false i = Ok r).
    { rewrite Forall_forall in IH. rewrite forallb_forall in Hch.
      intros c Hc ce' i. destruct (IH c Hc (Hch c Hc) ce' false i eq_refl) as [x Hx].
      eexists; exact Hx. }
    apply orb_true_iff in Hj. destruct Hj as [Hj|Hj];
      [apply orb_true_iff in Hj; destruct Hj as [Hj|Hj]|].
    + apply andb_true_iff in Hj. destruct Hj as [Hj Hlen].
      apply String.eqb_eq in Hj. subst j. apply Nat.eqb_eq in Hlen.
      destruct ch as [|c [|c' rest]]; try discriminate Hlen.
      rewrite helper_list, Hexp. cbn [mapE baseOf].
      destruct (Hkids c (or_introl eq_refl) ce 0) as [r ->].
      cbn [bind length Nat.ltb Nat.leb]. destruct doExport; eexists; reflexivity.
    + apply String.eqb_eq in Hj. subst j.
      rewrite helper_union, Hexp.
      destruct (mapE_total
                  (fun child =>
                     r <- typeContentToTsHelper ce child false 0 ;; Ok (tsContent r)) ch)
        as [texts ->].
      { intros c Hc. destruct (Hkids c Hc ce 0) as [r ->]. eexists; reflexivity. }
      cbn [bind baseOf]. destruct doExport; eexists; reflexivity.
    + apply String.eqb_eq in Hj. subst j.
      rewrite helper_object, Hexp. cbn [baseOf].
      destruct ((length ch =? 0)%nat && negb doExport); [eexists; reflexivity|].
      destruct (mapE_total (propertyLine ce indent) ch) as [lines Hlines].
      { intros c Hc. unfold propertyLine.
        destruct (Hkids c Hc ce (indent + 1)) as [r ->]. eexists; reflexivity. }
      rewrite Hlines.
      destruct (negb (length ch =? 0)%nat); cbn [bind];
        destruct doExport; eexists; reflexivity.
Qed.

(* ================================================================= *)
(** * Alternatives *)

Lemma ownLabel_spec (d : Describe) :
  (if truthy (flag Flags.label d) then [templ (flag Flags.label d)] else [])
  = ownLabel d.
Proof.
  unfold ownLabel. destruct (flag Flags.label d) as [l|]; [|reflexivity].
  simpl. now destruct (l =? EmptyString).
Qed.

(** C8, at the failing inputs: an alternatives node that has no [matches],
    as [Joi.alternatives()] describes itself, does not come to the test of
    the number of children: [filterMap] reads a property of [undefined] and
    throws a TypeError; so does a node one of whose matches has no
    [schema], on reading its [flags].  Nothing is returned in either case. *)
Theorem parseAlternatives_without_matches_throws :
  forall (stack : nat) (s : Settings) (useLabels : bool)
         (ignoreLabels : list string),
    parseSchema (S stack) (mkDescribe "alternatives" None None None None None) s
      useLabels ignoreLabels
    = Throw (TypeError "Cannot read property 'reduce' of undefined")
    /\ parseSchema (S stack)
         (mkDescribe "alternatives" None None None None (Some [None])) s
         useLabels ignoreLabels
       = Throw (TypeError "Cannot read property 'flags' of undefined").
Proof.
  intros stack s useLabels ignoreLabels.
  split; rewrite parseSchema_dispatch; reflexivity.
Qed.

(** X23: an alternatives node that has its [matches] parses every match
    with its own label, when it has one, as the ignore-label list; when
    every match parses without exception, it returns the [union] of the
    parses that are not nothing, in order, or nothing when none is left;
    on a well-formed tree within the stack every match does parse. *)
Theorem parseAlternatives_survivors :
  forall (stack : nat) (d : Describe) (s : Settings) (useLabels : bool)
         (ignoreLabels : list string) (ms : list (option Describe)),
    type d = "alternatives" ->
    matches d = Some ms ->
    labelShortCircuit d useLabels ignoreLabels = false ->
    (forall kids,
        Survivors (parseMatch (parseSchema stack) s (ownLabel d)) ms kids ->
        parseSchema (S stack) d s useLabels ignoreLabels
        = Ok (match kids with
              | [] => None
              | _ :: _ =>
                  Some (TypeContentRoot "union" kids
                          (mkBase (flag Flags.label d) None
                             (Some (snd (getCommonDetails d s)))
                             (flag Flags.description d)))
              end))
    /\ (wellFormed d = true -> depth d <= S stack ->
        exists kids,
          Survivors (parseMatch (parseSchema stack) s (ownLabel d)) ms kids).
Proof.
  intros stack d s useLabels ignoreLabels ms Htype Hms Hsc. split.
  - intros kids Hkids.
    rewrite parseSchema_dispatch; [|exact Hsc | rewrite Htype; reflexivity].
    rewrite Htype. cbn [String.eqb Ascii.eqb Bool.eqb].
    rewrite parseAlternatives_unfold, Hms, ownLabel_spec.
    apply filterMap_Survivors in Hkids. rewrite Hkids. cbn [bind].
    destruct kids; reflexivity.
  - intros Hwf Hdepth. apply Survivors_total. intros m Hm.
    rewrite wellFormed_unfold, Htype, Hms in Hwf.
    cbn [String.eqb Ascii.eqb Bool.eqb andb] in Hwf.
    rewrite andb_true_r in Hwf. rewrite forallb_forall in Hwf.
    pose proof (Hwf m Hm) as Hwm. destruct m as [m|]; [|discriminate Hwm].
    apply parseSchema_total; [exact Hwm|].
    pose proof (depth_matches d m ms Hms Hm). lia.
Qed.

Lemma parseAlternatives_survivors_witness :
  parseSchema 2
    (mkDescribe "alternatives" (Some (Flags.mk (Some "Either") None None None))
       None None None
       (Some [Some (mkDescribe "string"
                      (Some (Flags.mk (Some "Either") None None None))
                      None None None None);
              Some (mkDescribe "binary" None None None None None)]))
    (mkSettings true true false) false []
  = Ok (Some (TypeContentRoot "union"
                [TypeContentChild "string"
                   (mkBase (Some "Either") None (Some true) None)]
                (mkBase (Some "Either") None (Some true) None))).
Proof.
  destruct (parseAlternatives_survivors 1
              (mkDescribe "alternatives" (Some (Flags.mk (Some "Either") None None None))
                 None None None
                 (Some [Some (mkDescribe "string"
                                (Some (Flags.mk (Some "Either") None None None))
                                None None None None);
                        Some (mkDescribe "binary" None None None None None)]))
              (mkSettings true true false) false [] _ eq_refl eq_refl eq_refl)
    as [Hparse _].
  apply (Hparse [TypeContentChild "string"
                   (mkBase (Some "Either") None (Some true) None)]).
  apply Survivors_keep; [reflexivity|].
  apply Survivors_skip; [reflexivity|].
  apply Survivors_nil.
Defined.

(* ================================================================= *)
(** * Objects *)

Lemma parseSchema_object (stack : nat) (d : Describe) (s : Settings)
    (useLabels : bool) (ignoreLabels : list string) :
  type d = "object" ->
  labelShortCircuit d useLabels ignoreLabels = false ->
  parseSchema (S stack) d s useLabels ignoreLabels
  = (kids <- filterMap (parseEntry (parseSchema stack) s)
               (match keys d with Some ks => ks | None => [] end) ;;
     Ok (Some (TypeContentRoot "object" (arrange d s kids)
                 (mkBase (flag Flags.label d) None
                    (Some (snd (getCommonDetails d s)))
                    (flag Flags.description d))))).
Proof.
  intros Htype Hsc.
  rewrite parseSchema_dispatch; [|exact Hsc | rewrite Htype; reflexivity].
  rewrite Htype. cbn [String.eqb Ascii.eqb Bool.eqb].
  rewrite parseObjects_unfold.
  destruct (filterMap _ _); reflexivity.
Qed.

Lemma parseSchema_object_total (stack : nat) (d : Describe) (s : Settings)
    (useLabels : bool) (ignoreLabels : list string) :
  type d = "object" ->
  labelShortCircuit d useLabels ignoreLabels = false ->
  wellFormed d = true -> depth d <= S stack ->
  exists t, parseSchema (S stack) d s useLabels ignoreLabels = Ok (Some t).
Proof.
  intros Htype Hsc Hwf Hdepth.
  destruct (parseSchema_total (S stack) d s useLabels ignoreLabels Hwf Hdepth)
    as [r Hr].
  rewrite parseSchema_object in Hr by assumption.
  rewrite parseSchema_object by assumption.
  destruct (filterMap _ _) as [kids|e]; [|discriminate Hr].
  eexists; reflexivity.
Qed.

Lemma includes_indexSignature_line (ce : bool) (indentLevel : nat) (line : string) :
  propertyLine ce indentLevel unknownProperty = Ok line ->
  includes line indexSignature = true.
Proof.
  unfold propertyLine, unknownProperty. cbn [typeContentToTsHelper bind].
  intros H. injection H as <-.
  repeat apply includes_append_l. reflexivity.
Qed.

(** C6: the object parsed from a node with [flags.unknown = true] holds the
    property [[x: string]] of content [any], required, described as
    Unknown Property, whatever its keys; its rendering returns and holds
    the index-signature line; and on a well-formed tree within the stack
    the parse returns. *)
Theorem unknown_flag_index_signature :
  forall (stack : nat) (d : Describe) (s : Settings) (useLabels : bool)
         (ignoreLabels : list string),
    type d = "object" ->
    flag Flags.unknown d = Some true ->
    labelShortCircuit d useLabels ignoreLabels = false ->
    (forall t,
        parseSchema (S stack) d s useLabels ignoreLabels = Ok (Some t) ->
        exists children,
          t = TypeContentRoot "object" children
                (mkBase (flag Flags.label d) None
                   (Some (snd (getCommonDetails d s))) (flag Flags.description d))
          /\ In (TypeContentChild "any"
                   (mkBase (Some "[x: string]") None (Some true)
                      (Some "Unknown Property"))) children
          /\ forall ce doExport indentLevel,
               exportable doExport t = true ->
               exists text,
                 typeContentToTsHelper ce t doExport indentLevel
                 = Ok (text, flag Flags.description d)
                 /\ includes text "[x: string]: any;" = true)
    /\ (wellFormed d = true -> depth d <= S stack ->
        exists t, parseSchema (S stack) d s useLabels ignoreLabels = Ok (Some t)).
Proof.
  intros stack d s useLabels ignoreLabels Htype Hunknown Hsc.
  split; [|now apply parseSchema_object_total].
  intros t Ht.
  pose proof (parseSchema_renderable _ _ _ _ _ _ Ht) as Hr.
  rewrite parseSchema_object in Ht by assumption.
  destruct (filterMap _ _) as [kids|e]; [|discriminate Ht].
  cbn [bind] in Ht. injection Ht as <-.
  set (children := arrange d s kids) in *.
  assert (Hin : In unknownProperty children).
  { subst children. unfold arrange. rewrite Hunknown.
    destruct (sortPropertiesByName s); [apply sortBy_In|];
      apply in_or_app; right; now left. }
  exists children. split; [reflexivity|]. split; [exact Hin|].
  intros ce doExport indent Hexp.
  unfold exportable in Hexp. cbn [baseOf name] in Hexp.
  apply negb_true_iff in Hexp.
  rewrite helper_object. cbn [name description]. rewrite Hexp.
  assert (Hlen : (length children =? 0)%nat = false).
  { destruct children; [destruct Hin | reflexivity]. }
  rewrite Hlen. cbn [andb negb].
  cbn [renderable] in Hr. apply andb_true_iff in Hr. destruct Hr as [_ Hch].
  rewrite forallb_forall in Hch.
  destruct (mapE_total (propertyLine ce indent) children) as [lines Hlines].
  { intros c Hc. unfold propertyLine.
    destruct (renderable_renders c (Hch c Hc) ce false (indent + 1) eq_refl)
      as [text ->].
    eexists; reflexivity. }
  rewrite Hlines. cbn [bind].
  destruct (mapE_In _ _ _ _ Hlines Hin) as (line & Hline & Hlin).
  apply includes_indexSignature_line in Hline.
  destruct (join_In nl line lines Hlin) as (pre & post & Hjoin).
  assert (Hbody : includes ("{" ++ nl ++ join nl lines ++ nl ++ getIndentStr indent ++ "}")
                    indexSignature = true).
  { rewrite Hjoin. do 2 apply includes_append_l.
    rewrite append_assoc. apply includes_append_l.
    rewrite append_assoc. now apply includes_append_r. }
  destruct doExport; eexists; (split; [reflexivity|]).
  - now do 3 apply includes_append_l.
  - exact Hbody.
Qed.

Lemma unknown_flag_index_signature_witness :
  exists t text,
    parseSchema 2
      (mkDescribe "object" (Some (Flags.mk None None None (Some true))) None None
         (Some [("id", mkDescribe "number" None None None None None)]) None)
      (mkSettings true true false) true []
    = Ok (Some t)
    /\ typeContentToTsHelper false t false 0 = Ok (text, None)
    /\ includes text "[x: string]: any;" = true.
Proof.
  destruct (unknown_flag_index_signature 1
              (mkDescribe "object" (Some (Flags.mk None None None (Some true)))
                 None None
                 (Some [("id", mkDescribe "number" None None None None None)]) None)
              (mkSettings true true false) true [] eq_refl eq_refl eq_refl)
    as [Hshape Hreturns].
  destruct (Hreturns eq_refl (le_n 2)) as [t Ht].
  destruct (Hshape t Ht) as (children & Et & _ & Hrender).
  destruct (Hrender false false 0 eq_refl) as (text & Htext & Hincl).
  exists t, text. repeat split; assumption.
Defined.

Lemma ltb_asym (x y : string) : String.ltb x y = true -> String.ltb y x = false.
Proof.
  unfold String.ltb. rewrite (String.compare_antisym x y).
  now destruct (String.compare y x).
Qed.

Lemma compareByName_total (a b : TypeContent) :
  (0 < compareByName a b)%Z -> (compareByName b a <= 0)%Z.
Proof.
  unfold compareByName, jsGt.
  destruct (jsLt (name (baseOf b)) (name (baseOf a))) eqn:Hba.
  - intros _.
    assert (Hab : jsLt (name (baseOf a)) (name (baseOf b)) = false).
    { unfold jsLt in *. destruct (name (baseOf a)), (name (baseOf b));
        try discriminate. now apply ltb_asym. }
    rewrite Hab. lia.
  - destruct (jsLt (name (baseOf a)) (name (baseOf b))); lia.
Qed.

Lemma compareByName_nameLe (a b : TypeContent) (na nb : string) :
  name (baseOf a) = Some na -> name (baseOf b) = Some nb ->
  (compareByName a b <= 0)%Z -> nameLe a b.
Proof.
  intros Ha Hb Hle. exists na, nb. repeat split; auto.
  unfold compareByName, jsGt, jsLt in Hle. rewrite Ha, Hb in Hle.
  unfold String.ltb in Hle. rewrite (String.compare_antisym na nb).
  destruct (String.compare nb na); simpl; try discriminate. lia.
Qed.

Lemma Sorted_nameLe (l : list TypeContent) :
  Forall named l ->
  Sorted (fun x y => (compareByName x y <= 0)%Z) l ->
  Sorted nameLe l.
Proof.
  intros Hnamed Hs. induction Hs as [|a l Hs IH Hhd]; [constructor|].
  inversion Hnamed as [|? ? [na Hna] Hrest]; subst.
  constructor; [now apply IH|].
  destruct Hhd as [|b l Hab]; constructor.
  inversion Hrest as [|? ? [nb Hnb] _]; subst.
  now apply (compareByName_nameLe a b na nb).
Qed.

Lemma Sorted_adjacent {X : Type} (R : X -> X -> Prop) (l : list X) :
  Sorted R l ->
  forall i a b, nth_error l i = Some a -> nth_error l (S i) = Some b -> R a b.
Proof.
  induction 1 as [|x l Hs IH Hhd]; intros i a b Ha Hb.
  - destruct i; discriminate Ha.
  - destruct i as [|i].
    + injection Ha as <-. destruct Hhd as [|y l Hxy]; [discriminate Hb|].
      injection Hb as <-. exact Hxy.
    + exact (IH i a b Ha Hb).
Qed.

(** C7: under [sortPropertiesByName] the children of a parsed object stand
    in nondecreasing order of their names: each child and the next are both
    named and the first name is not greater than the second in the
    three-way comparison; and on a well-formed tree within the stack the
    parse returns. *)
Theorem sorted_properties_by_name :
  forall (stack : nat) (d : Describe) (s : Settings) (useLabels : bool)
         (ignoreLabels : list string),
    sortPropertiesByName s = true ->
    type d = "object" ->
    labelShortCircuit d useLabels ignoreLabels = false ->
    (forall t,
        parseSchema (S stack) d s useLabels ignoreLabels = Ok (Some t) ->
        exists children,
          t = TypeContentRoot "object" children
                (mkBase (flag Flags.label d) None
                   (Some (snd (getCommonDetails d s))) (flag Flags.description d))
          /\ forall i a b,
               nth_error children i = Some a ->
               nth_error children (S i) = Some b ->
               nameLe a b)
    /\ (wellFormed d = true -> depth d <= S stack ->
        exists t, parseSchema (S stack) d s useLabels ignoreLabels = Ok (Some t)).
Proof.
  intros stack d s useLabels ignoreLabels Hsort Htype Hsc.
  split; [|now apply parseSchema_object_total].
  intros t Ht.
  rewrite parseSchema_object in Ht by assumption.
  destruct (filterMap _ _) as [kids|e] eqn:Hkids; [|discriminate Ht].
  cbn [bind] in Ht. injection Ht as <-.
  exists (arrange d s kids). split; [reflexivity|].
  apply Sorted_adjacent.
  unfold arrange. rewrite Hsort.
  apply Sorted_nameLe; [|apply sortBy_Sorted; exact compareByName_total].
  apply sortBy_Forall.
  assert (Hk : Forall named kids).
  { apply filterMap_Survivors in Hkids.
    eapply Survivors_Forall; [|exact Hkids].
    intros entry k _ He. apply parseEntry_some in He.
    destruct He as (p & n & _ & ->). exists n. now destruct p. }
  destruct (flag Flags.unknown d) as [[|]|]; auto.
  apply Forall_app. split; [exact Hk|].
  constructor; [now exists "[x: string]" | constructor].
Qed.

Lemma sorted_properties_by_name_witness :
  exists children,
    parseSchema 2
      (mkDescribe "object" (Some (Flags.mk None None None (Some true))) None None
         (Some [("jobTitle", mkDescribe "string" None None None None None);
                ("a-b", mkDescribe "number" None None None None None);
                ("businessName", mkDescribe "string" None None None None None)])
         None)
      (mkSettings true true false) true []
    = Ok (Some (TypeContentRoot "object" children
                  (mkBase None None (Some true) None)))
    /\ map (fun c => name (baseOf c)) children
       = [Some "'a-b'"; Some "[x: string]"; Some "businessName"; Some "jobTitle"]
    /\ forall i a b,
         nth_error children i = Some a -> nth_error children (S i) = Some b ->
         nameLe a b.
Proof.
  destruct (sorted_properties_by_name 1
              (mkDescribe "object" (Some (Flags.mk None None None (Some true)))
                 None None
                 (Some [("jobTitle", mkDescribe "string" None None None None None);
                        ("a-b", mkDescribe "number" None None None None None);
                        ("businessName", mkDescribe "string" None None None None None)])
                 None)
              (mkSettings true true false) true [] eq_refl eq_refl eq_refl)
    as [Hshape _].
  destruct (Hshape _ eq_refl) as (children & Et & Hsorted).
  exists children. injection Et as <-.
  split; [reflexivity|]. split; [reflexivity | exact Hsorted].
Defined.

(* ================================================================= *)
(** * The end-to-end examples of the specification *)

(** The object labelled Job with two required string properties, parsed
    without following its own label and rendered with export. *)
Example render_Job :
  forall (s : Settings) (stack : nat),
    (t <- parseSchema (2 + stack)
            (mkDescribe "object" (Some (Flags.mk (Some "Job") None None None))
               None None
               (Some [("businessName",
                       mkDescribe "string"
                         (Some (Flags.mk None None (Some "required") None))
                         None None None None);
                      ("jobTitle",
                       mkDescribe "string"
                         (Some (Flags.mk None None (Some "required") None))
                         None None None None)])
               None)
            s false [] ;;
     match t with
     | Some t => typeContentToTs false t true
     | None => Ok EmptyString
     end)
    = Ok ("export interface Job {" ++ nl
          ++ "  businessName: string;" ++ nl
          ++ "  jobTitle: string;" ++ nl
          ++ "}").
Proof.
  intros [req [|] ce] stack; reflexivity.
Qed.

(** The array labelled People of the labelled object Person: the item is
    referenced by its label, not expanded. *)
Example render_People :
  forall (s : Settings) (stack : nat),
    (t <- parseSchema (2 + stack)
            (mkDescribe "array"
               (Some (Flags.mk (Some "People") (Some "A list of People")
                        (Some "required") None))
               None
               (Some [mkDescribe "object"
                        (Some (Flags.mk (Some "Person") None None None))
                        None None (Some []) None])
               None None)
            s false [] ;;
     match t with
     | Some t => typeContentToTs false t true
     | None => Ok EmptyString
     end)
    = Ok ("/**" ++ nl ++ " * A list of People" ++ nl ++ " */" ++ nl
          ++ "export type People = Person[];").
Proof.
  intros [req srt ce] stack; reflexivity.
Qed.

(* ================================================================= *)
(** * Labels, unsupported types and the common details *)

(** X1: a node whose label is followed parses to a leaf that only names the
    label and records it in [customTypes]; one frame of stack is enough
    whatever lies below the node, and the leaf renders as the label. *)
Theorem label_reference :
  forall (stack : nat) (d : Describe) (s : Settings) (ignoreLabels : list string)
         (l : string),
    flag Flags.label d = Some l -> l <> EmptyString ->
    includesStr ignoreLabels l = false ->
    let t := TypeContentChild l
               (mkBase None (Some [l]) (Some (snd (getCommonDetails d s)))
                  (flag Flags.description d)) in
    parseSchema (S stack) d s true ignoreLabels = Ok (Some t)
    /\ getAllCustomTypes t = [l]
    /\ forall ce doExport indentLevel,
         typeContentToTsHelper ce t doExport indentLevel
         = Ok (l, flag Flags.description d).
Proof.
  intros stack d s il l Hl Hne Hil t.
  split; [|split; reflexivity].
  rewrite parseSchema_unfold. unfold labelShortCircuit.
  rewrite Hl. cbn [templ]. rewrite Hil, (truthy_some l Hne). reflexivity.
Qed.

Lemma label_reference_witness :
  parseSchema 1
    (mkDescribe "array"
       (Some (Flags.mk (Some "People") None (Some "optional") None))
       None (Some []) None None)
    (mkSettings true true false) true []
  = Ok (Some (TypeContentChild "People"
                (mkBase None (Some ["People"]) (Some false) None))).
Proof.
  apply (label_reference 0
           (mkDescribe "array"
              (Some (Flags.mk (Some "People") None (Some "optional") None))
              None (Some []) None None)
           (mkSettings true true false) [] "People");
    [reflexivity | discriminate | reflexivity].
Defined.

(** X3: [useLabels] and [ignoreLabels] bear on the node they are handed
    with and on nothing below it: two calls that agree on whether the
    node's own label is followed return the same. *)
Theorem labels_bear_on_the_node_only :
  forall (stack : nat) (d : Describe) (s : Settings)
         (useLabels useLabels' : bool) (ignoreLabels ignoreLabels' : list string),
    labelShortCircuit d useLabels ignoreLabels
    = labelShortCircuit d useLabels' ignoreLabels' ->
    parseSchema stack d s useLabels ignoreLabels
    = parseSchema stack d s useLabels' ignoreLabels'.
Proof.
  intros [|stack] d s ul ul' il il' H; [reflexivity|].
  rewrite !parseSchema_unfold, H. reflexivity.
Qed.

Lemma labels_bear_on_the_node_only_witness :
  parseSchema 3
    (mkDescribe "array" (Some (Flags.mk (Some "L") None None None)) None
       (Some [mkDescribe "string" (Some (Flags.mk (Some "L") None None None))
                None None None None]) None None)
    (mkSettings true true false) true ["L"]
  = parseSchema 3
      (mkDescribe "array" (Some (Flags.mk (Some "L") None None None)) None
         (Some [mkDescribe "string" (Some (Flags.mk (Some "L") None None None))
                  None None None None]) None None)
      (mkSettings true true false) false [].
Proof.
  apply (labels_bear_on_the_node_only 3
           (mkDescribe "array" (Some (Flags.mk (Some "L") None None None)) None
              (Some [mkDescribe "string" (Some (Flags.mk (Some "L") None None None))
                       None None None None]) None None)
           (mkSettings true true false) true false ["L"] []).
  reflexivity.
Defined.

(** X4: whatever node [parseSchema] returns carries the description of the
    description node and its required-ness: [false] for presence
    [optional], [true] for [required], the default of the settings
    otherwise; its name is the label, unless the label is followed. *)
Theorem parsed_common_details :
  forall (stack : nat) (d : Describe) (s : Settings) (useLabels : bool)
         (ignoreLabels : list string) (t : TypeContent),
    parseSchema stack d s useLabels ignoreLabels = Ok (Some t) ->
    description (baseOf t) = flag Flags.description d
    /\ required (baseOf t)
       = Some (match flag Flags.presence d with
               | Some p =>
                   if p =? "optional" then false
                   else if p =? "required" then true
                   else defaultToRequired s
               | None => defaultToRequired s
               end)
    /\ name (baseOf t)
       = if labelShortCircuit d useLabels ignoreLabels then None
         else flag Flags.label d.
Proof.
  intros [|stack] d s ul il t H; [discriminate H|].
  rewrite parseSchema_unfold in H.
  destruct (labelShortCircuit d ul il).
  - injection H as <-. repeat split.
  - destruct (negb (includesStr supportedJoiTypes (type d))); [discriminate H|].
    match type of H with
    | bind ?m _ = _ => destruct m as [[t0|]|e]
    end; cbn [bind] in H; try discriminate H.
    injection H as <-. destruct t0; repeat split.
Qed.

Lemma parsed_common_details_witness :
  required
    (baseOf (TypeContentChild "string" (mkBase None None (Some false) None)))
  = Some false.
Proof.
  apply (parsed_common_details 1
           (mkDescribe "string" (Some (Flags.mk None None (Some "optional") None))
              None None None None)
           (mkSettings true true false) true []
           (TypeContentChild "string" (mkBase None None (Some false) None))).
  reflexivity.
Defined.

(** X18: an array node is parsed from the first of its [items] alone; the
    others change nothing. *)
Theorem array_first_item_only :
  forall (stack : nat) (fl : option Flags.t) (al : option (list JValue))
         (item : Describe) (others : list Describe)
         (ks : option (list (string * Describe)))
         (ms : option (list (option Describe)))
         (s : Settings) (useLabels : bool) (ignoreLabels : list string),
    parseSchema stack (mkDescribe "array" fl al (Some (item :: others)) ks ms) s
      useLabels ignoreLabels
    = parseSchema stack (mkDescribe "array" fl al (Some [item]) ks ms) s
        useLabels ignoreLabels.
Proof.
  intros [|stack] fl al item others ks ms s ul il; reflexivity.
Qed.

Lemma filterMap_drop {A B : Type} (f : A -> result (option B))
    (before after : list A) (a : A) :
  f a = Ok None ->
  (forall x, In x before -> exists r, f x = Ok r) ->
  filterMap f (before ++ a :: after)%list = filterMap f (before ++ after)%list.
Proof.
  intros Ha Hbefore. induction before as [|x before IH].
  - cbn [app filterMap]. fold (filterMap f). rewrite Ha. cbn [bind].
    now destruct (filterMap f after).
  - cbn [app filterMap]. fold (filterMap f).
    rewrite IH; [reflexivity|]. intros y Hy. apply Hbefore. now right.
Qed.

(** X2: a node of an unsupported type, with no label to follow, parses to
    nothing.  An array of it parses to nothing; as the value of an object
    key or as a match of an alternatives node whose earlier entries parse,
    it is left out: the parent parses as if the entry were not there. *)
Theorem unsupported_type_is_left_out :
  forall (stack : nat) (bad : Describe) (s : Settings),
    includesStr supportedJoiTypes (type bad) = false ->
    truthy (flag Flags.label bad) = false ->
    (forall useLabels ignoreLabels,
        parseSchema (S stack) bad s useLabels ignoreLabels = Ok None)
    /\ (forall fl al others ks ms useLabels ignoreLabels,
          let d := mkDescribe "array" fl al (Some (bad :: others)) ks ms in
          labelShortCircuit d useLabels ignoreLabels = false ->
          parseSchema (S (S stack)) d s useLabels ignoreLabels = Ok None)
    /\ (forall fl al its ms before key after useLabels ignoreLabels,
          (forall e, In e before ->
                     exists r, parseSchema (S stack) (snd e) s true [] = Ok r) ->
          parseSchema (S (S stack))
            (mkDescribe "object" fl al its (Some (before ++ (key, bad) :: after)%list) ms)
            s useLabels ignoreLabels
          = parseSchema (S (S stack))
              (mkDescribe "object" fl al its (Some (before ++ after)%list) ms)
              s useLabels ignoreLabels)
    /\ (forall fl al its ks before after useLabels ignoreLabels,
          let own := ownLabel (mkDescribe "alternatives" fl al its ks None) in
          (forall m, In m before ->
                     exists r, parseMatch (parseSchema (S stack)) s own m = Ok r) ->
          parseSchema (S (S stack))
            (mkDescribe "alternatives" fl al its ks
               (Some (before ++ Some bad :: after)%list))
            s useLabels ignoreLabels
          = parseSchema (S (S stack))
              (mkDescribe "alternatives" fl al its ks (Some (before ++ after)%list))
              s useLabels ignoreLabels).
Proof.
  intros stack bad s Hbad Hlabel.
  assert (Hnone : forall ul il, parseSchema (S stack) bad s ul il = Ok None).
  { intros ul il. rewrite parseSchema_unfold. unfold labelShortCircuit.
    rewrite Hlabel, Hbad. reflexivity. }
  split; [exact Hnone|]. split; [|split].
  - intros fl al others ks ms ul il d Hsc.
    rewrite parseSchema_unfold, Hsc. cbn [negb].
    change (includesStr supportedJoiTypes (type d)) with true. cbn [negb].
    change (type d =? "array") with true. cbv iota.
    unfold parseArray. cbn [items d nth_error].
    destruct (getCommonDetails d s) as [[lbl descr] req].
    rewrite Hnone. reflexivity.
  - intros fl al its ms before key after ul il Hbefore.
    rewrite !parseSchema_unfold.
    change (labelShortCircuit
              (mkDescribe "object" fl al its (Some (before ++ (key, bad) :: after)%list) ms)
              ul il)
      with (labelShortCircuit
              (mkDescribe "object" fl al its (Some (before ++ after)%list) ms) ul il).
    destruct (labelShortCircuit _ ul il); [reflexivity|].
    cbn [type negb]. change (includesStr supportedJoiTypes "object") with true.
    cbn [negb]. change ("object" =? "array") with false.
    change ("object" =? "string") with false.
    change ("object" =? "alternatives") with false.
    change ("object" =? "object") with true. cbv iota.
    rewrite !parseObjects_unfold. cbn [keys].
    rewrite filterMap_drop.
    + reflexivity.
    + unfold parseEntry. rewrite Hnone. reflexivity.
    + intros [k v] He. unfold parseEntry.
      destruct (Hbefore (k, v) He) as [[t|] Hr]; cbn [snd] in Hr; rewrite Hr;
        eexists; reflexivity.
  - intros fl al its ks before after ul il own Hbefore.
    rewrite !parseSchema_unfold.
    change (labelShortCircuit
              (mkDescribe "alternatives" fl al its ks
                 (Some (before ++ Some bad :: after)%list))
              ul il)
      with (labelShortCircuit
              (mkDescribe "alternatives" fl al its ks (Some (before ++ after)%list)) ul il).
    destruct (labelShortCircuit _ ul il); [reflexivity|].
    cbn [type negb]. change (includesStr supportedJoiTypes "alternatives") with true.
    cbn [negb]. change ("alternatives" =? "array") with false.
    change ("alternatives" =? "string") with false.
    change ("alternatives" =? "alternatives") with true. cbv iota.
    rewrite !parseAlternatives_unfold. cbn [matches].
    rewrite filterMap_drop.
    + reflexivity.
    + apply Hnone.
    + intros m Hm.
      rewrite (ownLabel_spec
                 (mkDescribe "alternatives" fl al its ks
                    (Some (before ++ Some bad :: after)%list))).
      exact (Hbefore m Hm).
Qed.

Lemma unsupported_type_is_left_out_witness :
  parseSchema 2
    (mkDescribe "object" None None None
       (Some [("id", mkDescribe "number" None None None None None);
              ("blob", mkDescribe "binary" None None None None None);
              ("tag", mkDescribe "string" None None None None None)]) None)
    (mkSettings true false false) true []
  = parseSchema 2
      (mkDescribe "object" None None None
         (Some [("id", mkDescribe "number" None None None None None);
                ("tag", mkDescribe "string" None None None None None)]) None)
      (mkSettings true false false) true [].
Proof.
  destruct (unsupported_type_is_left_out 0
              (mkDescribe "binary" None None None None None)
              (mkSettings true false false) eq_refl eq_refl)
    as (_ & _ & Hobject & _).
  apply (Hobject None None None None
           [("id", mkDescribe "number" None None None None None)] "blob"
           [("tag", mkDescribe "string" None None None None None)] true []).
  intros e [<-|[]]. eexists; reflexivity.
Defined.

(* ================================================================= *)
(** * Parsing, then rendering *)

(** X5: whatever tree [parseSchema] returns, [typeContentToTs] renders it:
    without export always, with export when the tree is named; exporting an
    unnamed composite is the one exception left, the needs-a-name error.
    The multiple-items and unsupported-join errors cannot be met on a
    parsed tree. *)
Theorem parsed_tree_renders :
  forall (stack : nat) (d : Describe) (s : Settings) (useLabels : bool)
         (ignoreLabels : list string) (t : TypeContent),
    parseSchema stack d s useLabels ignoreLabels = Ok (Some t) ->
    (forall ce, exists text, typeContentToTs ce t false = Ok text)
    /\ (forall ce, truthy (name (baseOf t)) = true ->
                   exists text, typeContentToTs ce t true = Ok text)
    /\ (forall ce j ch b,
          t = TypeContentRoot j ch b -> truthy (name b) = false ->
          typeContentToTs ce t true = Throw (NeedsName t)).
Proof.
  intros stack d s ul il t Ht.
  pose proof (parseSchema_renderable _ _ _ _ _ _ Ht) as Hr.
  split; [|split].
  - intros ce. unfold typeContentToTs.
    destruct (renderable_renders t Hr ce false 0 eq_refl) as [text ->].
    eexists; reflexivity.
  - intros ce Hname. unfold typeContentToTs.
    destruct (renderable_renders t Hr ce true 0) as [text ->].
    + unfold exportable. now rewrite Hname.
    + eexists; reflexivity.
  - intros ce j ch b -> Hname. unfold typeContentToTs.
    cbn [typeContentToTsHelper]. rewrite Hname. reflexivity.
Qed.

Lemma parsed_tree_renders_witness :
  exists text,
    typeContentToTs true
      (TypeContentRoot "list"
         [TypeContentChild "any" (mkBase None None (Some false) None)]
         (mkBase None None (Some false) None)) false
    = Ok text.
Proof.
  destruct (parsed_tree_renders 2 (mkDescribe "array" None None None None None)
              (mkSettings false true false) true []
              (TypeContentRoot "list"
                 [TypeContentChild "any" (mkBase None None (Some false) None)]
                 (mkBase None None (Some false) None)) eq_refl)
    as [Hplain _].
  exact (Hplain true).
Defined.

Lemma mapE_length {A B : Type} (f : A -> result B) (l : list A) (bs : list B) :
  mapE f l = Ok bs -> length bs = length l.
Proof.
  revert bs. induction l as [|a l IH]; intros bs H.
  - injection H as <-. reflexivity.
  - cbn [mapE] in H. fold (mapE f) in H.
    destruct (f a); [|discriminate H].
    destruct (mapE f l) as [bs'|]; [|discriminate H].
    injection H as <-. cbn [length]. f_equal. now apply IH.
Qed.

(** X7: the shapes the renderer refuses, once the name check is passed.  A
    [list] of two children or more, each of which renders, throws the
    multiple-items error; a [list] without a child throws a TypeError; a
    join operation other than [list], [union] and [object] throws the
    unsupported-join error without looking at the children. *)
Theorem renderer_refused_shapes :
  forall (ce : bool) (b : BaseTypeContent) (doExport : bool) (indentLevel : nat),
    doExport && negb (truthy (name b)) = false ->
    (forall c1 c2 others,
        (forall c, In c (c1 :: c2 :: others) ->
                   exists r, typeContentToTsHelper ce c false 0 = Ok r) ->
        typeContentToTsHelper ce (TypeContentRoot "list" (c1 :: c2 :: others) b)
          doExport indentLevel
        = Throw MultipleArrayItems)
    /\ typeContentToTsHelper ce (TypeContentRoot "list" [] b) doExport indentLevel
       = Throw (TypeError "Cannot read property 'tsContent' of undefined")
    /\ (forall j ch,
          j <> "list" -> j <> "union" -> j <> "object" ->
          typeContentToTsHelper ce (TypeContentRoot j ch b) doExport indentLevel
          = Throw (UnsupportedJoin j)).
Proof.
  intros ce b doExport indent Hname. split; [|split].
  - intros c1 c2 others Hkids.
    rewrite helper_list, Hname.
    destruct (mapE_total (fun child => typeContentToTsHelper ce child false 0)
                (c1 :: c2 :: others) Hkids) as [texts Htexts].
    rewrite Htexts. cbn [bind].
    apply mapE_length in Htexts. rewrite Htexts. reflexivity.
  - rewrite helper_list, Hname. reflexivity.
  - intros j ch Hl Hu Ho.
    cbn [typeContentToTsHelper]. rewrite Hname.
    apply String.eqb_neq in Hl, Hu, Ho. rewrite Hl, Hu, Ho. reflexivity.
Qed.

Lemma renderer_refused_shapes_witness :
  typeContentToTsHelper false
    (TypeContentRoot "list" [leaf "string"; leaf "number"]
       (mkBase (Some "Pair") None None None)) true 0
  = Throw MultipleArrayItems
  /\ typeContentToTsHelper false
       (TypeContentRoot "tuple" [leaf "string"] (mkBase (Some "Pair") None None None))
       true 0
     = Throw (UnsupportedJoin "tuple").
Proof.
  destruct (renderer_refused_shapes false (mkBase (Some "Pair") None None None)
              true 0 eq_refl) as (Hmany & _ & Hjoin).
  split.
  - apply (Hmany (leaf "string") (leaf "number") []).
    intros c [<-|[<-|[]]]; eexists; reflexivity.
  - apply (Hjoin "tuple" [leaf "string"]); discriminate.
Defined.

(** X8: a [list] whose single child renders to a text without the union
    operator renders as that text followed by [[]], with no parentheses;
    exported, as the type alias of it. *)
Theorem list_plain_child :
  forall (ce : bool) (child : TypeContent) (b : BaseTypeContent)
         (text : string) (descr : option string) (doExport : bool)
         (indentLevel : nat),
    typeContentToTsHelper ce child false 0 = Ok (text, descr) ->
    includes text "|" = false ->
    doExport && negb (truthy (name b)) = false ->
    typeContentToTsHelper ce (TypeContentRoot "list" [child] b) doExport indentLevel
    = Ok (if doExport
          then "export type " ++ templ (name b) ++ " = " ++ text ++ "[];"
          else text ++ "[]",
          description b).
Proof.
  intros ce child b text descr doExport indent Hchild Hincl Hname.
  rewrite helper_list, Hname. cbn [mapE]. rewrite Hchild.
  cbn [bind length Nat.ltb Nat.leb tsContent fst]. rewrite Hincl. cbv zeta.
  destruct doExport; rewrite ?append_assoc; reflexivity.
Qed.

Lemma list_plain_child_witness :
  typeContentToTsHelper false
    (TypeContentRoot "list" [leaf "Person"] (mkBase (Some "People") None None None))
    true 0
  = Ok ("export type People = Person[];", None).
Proof.
  apply (list_plain_child false (leaf "Person")
           (mkBase (Some "People") None None None) "Person" None true 0);
    reflexivity.
Defined.

(* ================================================================= *)
(** * The stack that is left does not matter *)

Lemma filterMap_mono {A B : Type} (f g : A -> result (option B)) (l : list A)
    (bs : list B) :
  (forall a r, In a l -> f a = Ok r -> g a = Ok r) ->
  filterMap f l = Ok bs -> filterMap g l = Ok bs.
Proof.
  revert bs. induction l as [|a l IH]; intros bs Hfg H; [exact H|].
  cbn [filterMap] in *. fold (filterMap f) in H. fold (filterMap g).
  destruct (f a) as [r|e] eqn:Ha; [|discriminate H].
  rewrite (Hfg a r (or_introl eq_refl) Ha).
  destruct (filterMap f l) as [bs'|e] eqn:Hl; [|discriminate H].
  rewrite (IH bs'); [exact H | | reflexivity].
  intros x r' Hx. apply Hfg. now right.
Qed.

Lemma parseSchema_one_more_frame (stack : nat) :
  forall (d : Describe) (s : Settings) (useLabels : bool)
         (ignoreLabels : list string) (r : option TypeContent),
    parseSchema stack d s useLabels ignoreLabels = Ok r ->
    parseSchema (S stack) d s useLabels ignoreLabels = Ok r.
Proof.
  induction stack as [|stack IH]; intros d s ul il r H; [discriminate H|].
  rewrite parseSchema_unfold in H. rewrite (parseSchema_unfold (S stack)).
  destruct (labelShortCircuit d ul il); [exact H|].
  destruct (negb (includesStr supportedJoiTypes (type d))); [exact H|].
  match type of H with
  | bind ?m _ = _ => destruct m as [x|e] eqn:Hshape
  end; [|discriminate H].
  match goal with
  | |- bind ?m _ = _ => assert (Hdeeper : m = Ok x)
  end; [|rewrite Hdeeper; exact H].
  clear H.
  destruct (type d =? "array").
  { unfold parseArray in *.
    destruct (getCommonDetails d s) as [[lbl descr] req].
    destruct (match items d with Some its => nth_error its 0 | None => Some anyDescribe end)
      as [item|]; [|discriminate Hshape].
    destruct (parseSchema stack item s true []) as [child|e] eqn:Hitem;
      [|discriminate Hshape].
    rewrite (IH _ _ _ _ _ Hitem). exact Hshape. }
  destruct (type d =? "string"); [exact Hshape|].
  destruct (type d =? "alternatives").
  { rewrite parseAlternatives_unfold in *.
    destruct (matches d) as [ms|]; [|discriminate Hshape].
    match type of Hshape with
    | bind ?m _ = _ => destruct m as [kids|e] eqn:Hkids
    end; [|discriminate Hshape].
    match type of Hkids with
    | filterMap (parseMatch _ _ ?own) _ = _ =>
        rewrite (filterMap_mono (parseMatch (parseSchema stack) s own)
                   (parseMatch (parseSchema (S stack)) s own) ms kids);
          [exact Hshape | | exact Hkids]
    end.
    intros [m|] r0 _ Hm; [now apply IH | discriminate Hm]. }
  destruct (type d =? "object"); [|exact Hshape].
  rewrite parseObjects_unfold in *.
  match type of Hshape with
  | bind ?m _ = _ => destruct m as [kids|e] eqn:Hkids
  end; [|discriminate Hshape].
  rewrite (filterMap_mono (parseEntry (parseSchema stack) s)
             (parseEntry (parseSchema (S stack)) s) _ kids); [exact Hshape | | exact Hkids].
  intros [key value] r0 _. unfold parseEntry.
  destruct (parseSchema stack value s true []) as [p|e] eqn:Hp; [|discriminate].
  now rewrite (IH _ _ _ _ _ Hp).
Qed.

(** X6: on a description tree where no array node has an empty [items],
    every alternatives node has its [matches] and every match its
    [schema], [parseSchema] returns, with no exception, as soon as the
    stack left is the depth of the tree, and what it returns is the same
    for every larger stack. *)
Theorem parse_returns_whatever_the_stack :
  forall (d : Describe) (s : Settings) (useLabels : bool)
         (ignoreLabels : list string),
    wellFormed d = true ->
    exists r,
      forall stack, depth d <= stack ->
                    parseSchema stack d s useLabels ignoreLabels = Ok r.
Proof.
  intros d s ul il Hwf.
  destruct (parseSchema_total (depth d) d s ul il Hwf (le_n _)) as [r Hr].
  exists r. intros stack Hle.
  induction Hle as [|stack _ IH]; [exact Hr|].
  now apply parseSchema_one_more_frame.
Qed.

Lemma parse_returns_whatever_the_stack_witness :
  exists r,
    forall stack, 3 <= stack ->
                  parseSchema stack arrayOfStringOrNumber
                    (mkSettings true true false) true [] = Ok r.
Proof.
  exact (parse_returns_whatever_the_stack arrayOfStringOrNumber
           (mkSettings true true false) true [] eq_refl).
Defined.

(* ================================================================= *)
(** * Documentation comments and indentation *)

Lemma length_append (a b : string) :
  String.length (a ++ b) = String.length a + String.length b.
Proof.
  induction a as [|c a IH]; simpl; [reflexivity | now rewrite IH].
Qed.

Lemma append_eq_r (a b : string) : a ++ b = b -> a = EmptyString.
Proof.
  intros H. apply (f_equal String.length) in H. rewrite length_append in H.
  destruct a; [reflexivity | simpl in H; lia].
Qed.

Lemma getDescriptionStr_emitted (ce : bool) (n descr : option string)
    (indentLevel : nat) :
  ce = true \/ truthy descr = true ->
  getDescriptionStr ce n descr indentLevel
  = (getIndentStr indentLevel ++ "/**" ++ nl
     ++ getIndentStr indentLevel ++ " * "
     ++ (if truthy descr then templ descr else templ n) ++ nl
     ++ getIndentStr indentLevel ++ " */") ++ nl.
Proof.
  intros H. unfold getDescriptionStr.
  assert (E : negb ce && negb (truthy descr) = false).
  { destruct H as [-> | ->]; [reflexivity | apply andb_false_r]. }
  rewrite E. unfold join. cbn [map String.concat].
  now rewrite !append_assoc.
Qed.

Lemma getDescriptionStr_empty (ce : bool) (n descr : option string)
    (indentLevel : nat) :
  getDescriptionStr ce n descr indentLevel = EmptyString
  <-> ce = false /\ truthy descr = false.
Proof.
  split.
  - intros H. destruct ce.
    + rewrite getDescriptionStr_emitted in H by now left.
      destruct (_ ++ _ ++ _ ++ _) in H; discriminate H.
    + destruct (truthy descr) eqn:Hd; [|now split].
      rewrite getDescriptionStr_emitted in H by now right.
      destruct (_ ++ _ ++ _ ++ _) in H; discriminate H.
  - intros [-> Hd]. unfold getDescriptionStr. now rewrite Hd.
Qed.

(** X12: the documentation comment is empty exactly when comments are not
    forced and the description is missing or empty; otherwise it is the
    three-line block, each line behind the indentation, whose text is the
    description or, failing one, the name. *)
Theorem getDescriptionStr_empty_iff :
  forall (ce : bool) (n descr : option string) (indentLevel : nat),
    (getDescriptionStr ce n descr indentLevel = EmptyString
     <-> ce = false /\ truthy descr = false)
    /\ (ce = true \/ truthy descr = true ->
        getDescriptionStr ce n descr indentLevel
        = (getIndentStr indentLevel ++ "/**" ++ nl
           ++ getIndentStr indentLevel ++ " * "
           ++ (if truthy descr then templ descr else templ n) ++ nl
           ++ getIndentStr indentLevel ++ " */") ++ nl).
Proof.
  intros ce n descr indent. split; [|apply getDescriptionStr_emitted].
  split.
  - intros H. destruct ce.
    + rewrite getDescriptionStr_emitted in H by now left.
      destruct (_ ++ _ ++ _ ++ _) in H; discriminate H.
    + destruct (truthy descr) eqn:Hd; [|now split].
      rewrite getDescriptionStr_emitted in H by now right.
      destruct (_ ++ _ ++ _ ++ _) in H; discriminate H.
  - intros [-> Hd]. unfold getDescriptionStr. now rewrite Hd.
Qed.

(** X13: the indentation of a level is two spaces a level, and nothing but
    spaces. *)
Theorem getIndentStr_spaces :
  forall (indentLevel : nat),
    String.length (getIndentStr indentLevel) = 2 * indentLevel
    /\ allChars (fun c => (c =? " ")%char) (getIndentStr indentLevel) = true.
Proof.
  unfold getIndentStr.
  induction indentLevel as [|n [IHl IHs]]; [split; reflexivity|].
  cbn [repeatStr]. split.
  - rewrite length_append, IHl. simpl. lia.
  - cbn. exact IHs.
Qed.

(* ================================================================= *)
(** * Literal unions and plain types *)

Lemma mapE_leaves (ce : bool) (texts : list string) :
  mapE (fun child =>
          r <- typeContentToTsHelper ce child false 0 ;; Ok (tsContent r))
       (map leaf texts)
  = Ok texts.
Proof.
  induction texts as [|x texts IH]; [reflexivity|].
  cbn [map mapE]. cbn [map mapE] in IH. rewrite IH. reflexivity.
Qed.

Lemma helper_union_leaves (ce : bool) (texts : list string) (b : BaseTypeContent)
    (doExport : bool) (indentLevel : nat) :
  doExport && negb (truthy (name b)) = false ->
  typeContentToTsHelper ce (TypeContentRoot "union" (map leaf texts) b) doExport
    indentLevel
  = Ok (if doExport
        then "export type " ++ templ (name b) ++ " = " ++ join " | " texts ++ ";"
        else join " | " texts,
        description b).
Proof.
  intros Hname. rewrite helper_union, Hname, mapE_leaves. cbn [bind].
  now destruct doExport.
Qed.

Lemma parseSchema_basic (stack : nat) (d : Describe) (s : Settings)
    (useLabels : bool) (ignoreLabels : list string) :
  includesStr basicTypes (type d) = true ->
  labelShortCircuit d useLabels ignoreLabels = false ->
  parseSchema (S stack) d s useLabels ignoreLabels
  = (parsedSchema <- parseBasicSchema d s ;;
     match parsedSchema with
     | None => Ok None
     | Some t =>
         Ok (Some (withBase t
                     (mkBase (flag Flags.label d) (customTypes (baseOf t))
                        (Some (snd (getCommonDetails d s)))
                        (flag Flags.description d))))
     end).
Proof.
  intros Htype Hsc.
  assert (Hty : type d = "any" \/ type d = "boolean" \/ type d = "date"
                \/ type d = "number").
  { unfold includesStr, basicTypes in Htype. cbn [existsb] in Htype.
    repeat (apply orb_true_iff in Htype; destruct Htype as [Htype|Htype]);
      try discriminate; apply String.eqb_eq in Htype; auto. }
  rewrite parseSchema_unfold, Hsc.
  destruct Hty as [E|[E|[E|E]]]; rewrite E; reflexivity.
Qed.

Lemma parseSchema_string (stack : nat) (d : Describe) (s : Settings)
    (useLabels : bool) (ignoreLabels : list string) :
  type d = "string" ->
  labelShortCircuit d useLabels ignoreLabels = false ->
  parseSchema (S stack) d s useLabels ignoreLabels
  = (parsedSchema <- parseStringSchema d s ;;
     match parsedSchema with
     | None => Ok None
     | Some t =>
         Ok (Some (withBase t
                     (mkBase (flag Flags.label d) (customTypes (baseOf t))
                        (Some (snd (getCommonDetails d s)))
                        (flag Flags.description d))))
     end).
Proof.
  intros Htype Hsc. rewrite parseSchema_unfold, Hsc, Htype. reflexivity.
Qed.

(** X9: a basic node with a non-empty [allow] list, parsed and rendered,
    reads as its tokens joined by the union operator: the base type first
    when the first allowed value is [null], then every allowed value,
    strings between single quotes; exported, as the type alias of that. *)
Theorem basic_allow_renders_as_union :
  forall (stack : nat) (d : Describe) (s : Settings) (useLabels : bool)
         (ignoreLabels : list string) (values : list JValue),
    includesStr basicTypes (type d) = true ->
    labelShortCircuit d useLabels ignoreLabels = false ->
    allow d = Some values -> values <> [] ->
    let base := if type d =? "date" then "Date" else type d in
    let union :=
      join " | " ((if startsWithNull values then [base] else [])
                  ++ map literalText values)%list in
    exists t,
      parseSchema (S stack) d s useLabels ignoreLabels = Ok (Some t)
      /\ forall ce doExport indentLevel,
           exportable doExport t = true ->
           typeContentToTsHelper ce t doExport indentLevel
           = Ok (if doExport
                 then "export type " ++ templ (flag Flags.label d) ++ " = "
                      ++ union ++ ";"
                 else union,
                 flag Flags.description d).
Proof.
  intros stack d s ul il values Htype Hsc Hallow Hne base union.
  rewrite parseSchema_basic by assumption.
  unfold parseBasicSchema, getCommonDetails. rewrite Hallow.
  destruct values as [|v vs]; [congruence|].
  cbn [length Nat.eqb negb nth_error bind makeTypeContentRoot withBase baseOf customTypes].
  eexists. split; [reflexivity|].
  intros ce doExport indent Hexp.
  unfold exportable in Hexp. cbn [baseOf name] in Hexp. apply negb_true_iff in Hexp.
  match goal with
  | |- typeContentToTsHelper _ (TypeContentRoot _ ?kids ?b) _ _ = _ =>
      assert (Hkids : kids
                      = map leaf ((if startsWithNull (v :: vs) then [base] else [])
                                  ++ map literalText (v :: vs))%list)
  end.
  { assert (Hmap : forall l,
               map (fun value =>
                      leaf (if isJsString value then "'" ++ templValue value ++ "'"
                            else templValue value)) l
               = map leaf (map literalText l)).
    { intros l. rewrite map_map. apply map_ext. intros [|[]| | |]; reflexivity. }
    rewrite Hmap. destruct v; reflexivity. }
  rewrite Hkids. rewrite helper_union_leaves by exact Hexp. reflexivity.
Qed.

Lemma basic_allow_renders_as_union_witness :
  exists t,
    parseSchema 1
      (mkDescribe "date" (Some (Flags.mk (Some "When") None None None))
         (Some [JNull; JStr "now"; JNum "0"]) None None None)
      (mkSettings true true false) false []
    = Ok (Some t)
    /\ typeContentToTsHelper false t true 0
       = Ok ("export type When = Date | null | 'now' | 0;", None).
Proof.
  destruct (basic_allow_renders_as_union 0
              (mkDescribe "date" (Some (Flags.mk (Some "When") None None None))
                 (Some [JNull; JStr "now"; JNum "0"]) None None None)
              (mkSettings true true false) false [] [JNull; JStr "now"; JNum "0"]
              eq_refl eq_refl eq_refl)
    as (t & Hparse & Hrender); [discriminate|].
  exists t. split; [exact Hparse|].
  injection Hparse as <-. apply (Hrender false true 0). reflexivity.
Defined.

Lemma filter_length_forallb {A : Type} (p : A -> bool) (l : list A) :
  (length (filter p l) =? length l)%nat = forallb p l.
Proof.
  assert (Hle : forall l', length (filter p l') <= length l').
  { induction l' as [|a l' IH]; cbn [filter length]; [lia|].
    destruct (p a); cbn [length]; lia. }
  induction l as [|a l IH]; [reflexivity|].
  cbn [filter forallb]. destruct (p a); cbn [length andb].
  - exact IH.
  - apply Nat.eqb_neq. pose proof (Hle l). lia.
Qed.

(** X10: a string node whose [allow] list is neither empty nor the empty
    string alone, parsed and rendered, reads as a union: the plain [string]
    first exactly when every allowed value is [null] or the empty string,
    then every allowed value, [null] bare and the others between single
    quotes. *)
Theorem string_allow_renders_as_union :
  forall (stack : nat) (d : Describe) (s : Settings) (useLabels : bool)
         (ignoreLabels : list string) (values : list JValue),
    type d = "string" ->
    labelShortCircuit d useLabels ignoreLabels = false ->
    allow d = Some values -> values <> [] -> values <> [JStr EmptyString] ->
    let union :=
      join " | " ((if forallb trivialAllow values then ["string"] else [])
                  ++ map stringLiteralText values)%list in
    exists t,
      parseSchema (S stack) d s useLabels ignoreLabels = Ok (Some t)
      /\ forall ce doExport indentLevel,
           exportable doExport t = true ->
           typeContentToTsHelper ce t doExport indentLevel
           = Ok (if doExport
                 then "export type " ++ templ (flag Flags.label d) ++ " = "
                      ++ union ++ ";"
                 else union,
                 flag Flags.description d).
Proof.
  intros stack d s ul il values Htype Hsc Hallow Hne Hne' union.
  rewrite parseSchema_string by assumption.
  unfold parseStringSchema, getCommonDetails. rewrite Hallow.
  assert (Hlen : negb (length values =? 0)%nat = true).
  { destruct values; [congruence | reflexivity]. }
  rewrite Hlen.
  assert (Hspecial : (length values =? 1)%nat
                     && match nth_error values 0 with
                        | Some v => JValue_eqb v (JStr EmptyString)
                        | None => false
                        end = false).
  { destruct values as [|v [|v' vs]]; try reflexivity.
    cbn [length Nat.eqb nth_error andb].
    destruct v as [| | |x|]; try reflexivity.
    cbn [JValue_eqb]. apply String.eqb_neq. congruence. }
  rewrite Hspecial.
  cbn [bind makeTypeContentRoot withBase baseOf customTypes].
  eexists. split; [reflexivity|].
  intros ce doExport indent Hexp.
  unfold exportable in Hexp. cbn [baseOf name] in Hexp. apply negb_true_iff in Hexp.
  match goal with
  | |- typeContentToTsHelper _ (TypeContentRoot _ ?kids ?b) _ _ = _ =>
      assert (Hkids : kids
                      = map leaf ((if forallb trivialAllow values then ["string"] else [])
                                  ++ map stringLiteralText values)%list)
  end.
  { rewrite filter_length_forallb.
    assert (Hp : forallb (includesValue stringAllowValues) values
                 = forallb trivialAllow values).
    { clear. induction values as [|v vs IH]; [reflexivity|].
      cbn [forallb]. rewrite IH. f_equal.
      destruct v as [| | |x|]; try reflexivity.
      unfold includesValue, stringAllowValues. cbn. apply orb_false_r. }
    rewrite Hp.
    assert (Hmap : map (fun value =>
                          if includesValue stringAllowValues value
                             && negb (JValue_eqb value (JStr EmptyString))
                          then leaf (templValue value)
                          else leaf ("'" ++ templValue value ++ "'")) values
                   = map leaf (map stringLiteralText values)).
    { rewrite map_map. apply map_ext. intros [|[]|z|x|y]; try reflexivity.
      unfold includesValue, stringAllowValues. cbn [existsb JValue_eqb orb].
      rewrite orb_false_r. destruct (x =? EmptyString); reflexivity. }
    rewrite Hmap. destruct (forallb trivialAllow values); reflexivity. }
  rewrite Hkids. rewrite helper_union_leaves by exact Hexp. reflexivity.
Qed.

Lemma string_allow_renders_as_union_witness :
  exists t,
    parseSchema 1
      (mkDescribe "string" None (Some [JNull]) None None None)
      (mkSettings true true false) true []
    = Ok (Some t)
    /\ typeContentToTsHelper false t false 0 = Ok ("string | null", None).
Proof.
  destruct (string_allow_renders_as_union 0
              (mkDescribe "string" None (Some [JNull]) None None None)
              (mkSettings true true false) true [] [JNull]
              eq_refl eq_refl eq_refl)
    as (t & Hparse & Hrender); [discriminate | discriminate |].
  exists t. split; [exact Hparse|].
  injection Hparse as <-. apply (Hrender false false 0). reflexivity.
Defined.

(** X11: a basic node without allowed values, parsed and rendered at top
    level, reads as its type, [Date] for [date]; the text is that bare type
    exactly when comments are not forced and the node has no description,
    and the type behind its documentation comment otherwise.  Export adds
    nothing to it. *)
Theorem basic_plain_renders_as_type :
  forall (stack : nat) (d : Describe) (s : Settings) (useLabels : bool)
         (ignoreLabels : list string),
    includesStr basicTypes (type d) = true ->
    labelShortCircuit d useLabels ignoreLabels = false ->
    allow d = None \/ allow d = Some [] ->
    let base := if type d =? "date" then "Date" else type d in
    exists t,
      parseSchema (S stack) d s useLabels ignoreLabels = Ok (Some t)
      /\ forall ce doExport,
           typeContentToTs ce t doExport
           = Ok (getDescriptionStr ce (flag Flags.label d)
                   (flag Flags.description d) 0 ++ base)
           /\ (typeContentToTs ce t doExport = Ok base
               <-> ce = false /\ truthy (flag Flags.description d) = false).
Proof.
  intros stack d s ul il Htype Hsc Hallow base.
  rewrite parseSchema_basic by assumption.
  exists (TypeContentChild base
            (mkBase (flag Flags.label d) None
               (Some (snd (getCommonDetails d s))) (flag Flags.description d))).
  split.
  - unfold parseBasicSchema, getCommonDetails.
    destruct Hallow as [-> | ->]; reflexivity.
  - intros ce doExport.
    assert (Hts : typeContentToTs ce
                    (TypeContentChild base
                       (mkBase (flag Flags.label d) None
                          (Some (snd (getCommonDetails d s)))
                          (flag Flags.description d))) doExport
                  = Ok (getDescriptionStr ce (flag Flags.label d)
                          (flag Flags.description d) 0 ++ base))
      by reflexivity.
    split; [exact Hts|]. rewrite Hts. split.
    + intros H. injection H as H. apply append_eq_r in H.
      now apply getDescriptionStr_empty in H.
    + intros H.
      apply (getDescriptionStr_empty ce (flag Flags.label d)
               (flag Flags.description d) 0) in H.
      now rewrite H.
Qed.

Lemma basic_plain_renders_as_type_witness :
  exists t,
    parseSchema 1 (mkDescribe "date" None None None None None)
      (mkSettings true true false) true []
    = Ok (Some t)
    /\ typeContentToTs false t false = Ok "Date".
Proof.
  destruct (basic_plain_renders_as_type 0
              (mkDescribe "date" None None None None None)
              (mkSettings true true false) true [] eq_refl eq_refl
              (or_introl eq_refl))
    as (t & Hparse & Hrender).
  exists t. split; [exact Hparse|].
  apply (proj2 (Hrender false false)). split; reflexivity.
Defined.

(* ================================================================= *)
(** * Custom types *)

Lemma labelsOf_label (d : Describe) (l : string) :
  flag Flags.label d = Some l -> In l (labelsOf d).
Proof.
  destruct d as [ty [f|] al its ks ms]; unfold flag; cbn [flags labelsOf];
    [|discriminate].
  intros ->. apply in_or_app. left. now left.
Qed.

Lemma labelsOf_items (d x : Describe) (l : list Describe) (lbl : string) :
  items d = Some l -> In x l -> In lbl (labelsOf x) -> In lbl (labelsOf d).
Proof.
  destruct d as [ty fl al its ks ms]; cbn [items labelsOf]. intros -> Hx Hl.
  apply in_or_app. right. apply in_or_app. left.
  apply in_flat_map. now exists x.
Qed.

Lemma labelsOf_keys (d : Describe) (entry : string * Describe)
    (l : list (string * Describe)) (lbl : string) :
  keys d = Some l -> In entry l -> In lbl (labelsOf (snd entry)) ->
  In lbl (labelsOf d).
Proof.
  destruct d as [ty fl al its ks ms]; cbn [keys labelsOf]. intros -> Hx Hl.
  apply in_or_app. right. apply in_or_app. right. apply in_or_app. left.
  apply in_flat_map. now exists entry.
Qed.

Lemma labelsOf_matches (d x : Describe) (l : list (option Describe))
    (lbl : string) :
  matches d = Some l -> In (Some x) l -> In lbl (labelsOf x) -> In lbl (labelsOf d).
Proof.
  destruct d as [ty fl al its ks ms]; cbn [matches labelsOf]. intros -> Hx Hl.
  apply in_or_app. right. apply in_or_app. right. apply in_or_app. right.
  apply in_flat_map. now exists (Some x).
Qed.

Lemma customTypes_withBase (t : TypeContent) (n : option string)
    (r : option bool) (descr : option string) :
  getAllCustomTypes (withBase t (mkBase n (customTypes (baseOf t)) r descr))
  = getAllCustomTypes t.
Proof. destruct t; reflexivity. Qed.

Lemma customTypes_leaves {X : Type} (g : X -> TypeContent) (l : list X) :
  (forall x, getAllCustomTypes (g x) = []) ->
  flat_map getAllCustomTypes (map g l) = [].
Proof.
  intros H. induction l as [|x l IH]; [reflexivity|].
  cbn [map flat_map]. now rewrite H, IH.
Qed.

Lemma parseStringSchema_customTypes (d : Describe) (s : Settings) (t : TypeContent) :
  parseStringSchema d s = Ok (Some t) -> getAllCustomTypes t = [].
Proof.
  unfold parseStringSchema, getCommonDetails.
  destruct (allow d) as [values|]; [|intros H; injection H as <-; reflexivity].
  destruct (negb (length values =? 0)%nat);
    [|intros H; injection H as <-; reflexivity].
  match goal with
  | |- context [if ?c then _ else _] => destruct c
  end; intros H; injection H as <-; [reflexivity|].
  cbn [makeTypeContentRoot getAllCustomTypes].
  match goal with
  | |- flat_map _ (if ?c then _ else _) = _ => destruct c
  end; cbn [flat_map leaf makeTypeContentChild getAllCustomTypes customTypes app];
    apply customTypes_leaves; intros v;
    match goal with
    | |- getAllCustomTypes (if ?c then _ else _) = _ => destruct c; reflexivity
    end.
Qed.

Lemma parseBasicSchema_customTypes (d : Describe) (s : Settings) (t : TypeContent) :
  parseBasicSchema d s = Ok (Some t) -> getAllCustomTypes t = [].
Proof.
  unfold parseBasicSchema, getCommonDetails.
  destruct (allow d) as [values|]; [|intros H; injection H as <-; reflexivity].
  destruct (negb (length values =? 0)%nat);
    [|intros H; injection H as <-; reflexivity].
  destruct (nth_error values 0) as [[| | | |]|]; intros H; injection H as <-;
    cbn [makeTypeContentRoot getAllCustomTypes flat_map leaf makeTypeContentChild
         customTypes app];
    apply customTypes_leaves; intros v; reflexivity.
Qed.

Lemma Survivors_In {A B : Type} (f : A -> result (option B)) (l : list A)
    (bs : list B) (b : B) :
  Survivors f l bs -> In b bs -> exists a, In a l /\ f a = Ok (Some b).
Proof.
  induction 1 as [|a l bs Ha _ IH|a b' l bs Ha _ IH]; intros Hin.
  - destruct Hin.
  - destruct (IH Hin) as (x & Hx & Hfx). exists x. split; [now right | exact Hfx].
  - destruct Hin as [<-|Hin].
    + exists a. split; [now left | exact Ha].
    + destruct (IH Hin) as (x & Hx & Hfx). exists x. split; [now right | exact Hfx].
Qed.

Lemma parseEntry_named self (s : Settings) (entry : string * Describe)
    (t : TypeContent) :
  parseEntry self s entry = Ok (Some t) ->
  exists p, self (snd entry) s true [] = Ok (Some p)
            /\ t = setName p (propertyName (fst entry)).
Proof.
  destruct entry as [key value]. unfold parseEntry. cbn [snd fst].
  destruct (self value s true []) as [[p|]|e]; cbn [bind]; try discriminate.
  intros H. injection H as <-. now exists p.
Qed.

Lemma customTypes_setName (t : TypeContent) (n : string) :
  getAllCustomTypes (setName t n) = getAllCustomTypes t.
Proof. destruct t; reflexivity. Qed.

(** X14: every custom type [getAllCustomTypes] collects from a parsed tree
    is a label that stands somewhere in the description tree it was parsed
    from. *)
Theorem custom_types_are_labels (stack : nat) :
  forall (d : Describe) (s : Settings) (useLabels : bool)
         (ignoreLabels : list string) (t : TypeContent) (lbl : string),
    parseSchema stack d s useLabels ignoreLabels = Ok (Some t) ->
    In lbl (getAllCustomTypes t) ->
    In lbl (labelsOf d).
Proof.
  induction stack as [|stack IH]; intros d s ul il t lbl H Hin;
    [discriminate H|].
  rewrite parseSchema_unfold in H.
  destruct (labelShortCircuit d ul il) eqn:Hsc.
  { injection H as <-. cbn in Hin. destruct Hin as [<-|[]].
    unfold labelShortCircuit in Hsc.
    destruct (flag Flags.label d) as [l|] eqn:Hl; [|discriminate Hsc].
    now apply labelsOf_label. }
  destruct (negb (includesStr supportedJoiTypes (type d))); [discriminate H|].
  match type of H with
  | bind ?m _ = _ => destruct m as [[t0|]|e] eqn:Hshape
  end; cbn [bind] in H; try discriminate H.
  injection H as <-. rewrite customTypes_withBase in Hin.
  destruct (type d =? "array").
  { unfold parseArray in Hshape.
    destruct (getCommonDetails d s) as [[l0 descr] req].
    destruct (items d) as [[|item rest]|] eqn:Hitems; cbn [nth_error] in Hshape;
      [discriminate Hshape | |].
    - destruct (parseSchema stack item s true []) as [[child|]|e] eqn:Hchild;
        cbn [bind] in Hshape; try discriminate Hshape.
      injection Hshape as <-.
      cbn [makeTypeContentRoot getAllCustomTypes flat_map] in Hin.
      rewrite app_nil_r in Hin.
      apply (labelsOf_items d item _ lbl Hitems (or_introl eq_refl)).
      exact (IH _ _ _ _ _ _ Hchild Hin).
    - destruct (parseSchema stack anyDescribe s true []) as [[child|]|e] eqn:Hchild;
        cbn [bind] in Hshape; try discriminate Hshape.
      injection Hshape as <-.
      cbn [makeTypeContentRoot getAllCustomTypes flat_map] in Hin.
      rewrite app_nil_r in Hin.
      destruct (IH _ _ _ _ _ _ Hchild Hin). }
  destruct (type d =? "string").
  { rewrite (parseStringSchema_customTypes d s t0 Hshape) in Hin. destruct Hin. }
  destruct (type d =? "alternatives").
  { rewrite parseAlternatives_unfold in Hshape.
    destruct (matches d) as [ms|] eqn:Hms; [|discriminate Hshape].
    match type of Hshape with
    | bind ?m _ = _ => destruct m as [kids|e] eqn:Hkids
    end; cbn [bind] in Hshape; try discriminate Hshape.
    destruct (length kids =? 0)%nat; [discriminate Hshape|].
    injection Hshape as <-. cbn [getAllCustomTypes] in Hin.
    apply in_flat_map in Hin. destruct Hin as (kid & Hkid & Hin).
    apply filterMap_Survivors in Hkids.
    destruct (Survivors_In _ _ _ _ Hkids Hkid) as ([m|] & Hm & Hparse);
      [|discriminate Hparse].
    apply (labelsOf_matches d m ms lbl Hms Hm).
    exact (IH _ _ _ _ _ _ Hparse Hin). }
  destruct (type d =? "object").
  { rewrite parseObjects_unfold in Hshape.
    match type of Hshape with
    | bind ?m _ = _ => destruct m as [kids|e] eqn:Hkids
    end; cbn [bind] in Hshape; try discriminate Hshape.
    injection Hshape as <-. cbn [getAllCustomTypes] in Hin.
    apply in_flat_map in Hin. destruct Hin as (kid & Hkid & Hin).
    assert (Hk : In kid kids \/ kid = unknownProperty).
    { cbv zeta in Hkid.
      destruct (sortPropertiesByName s); [apply sortBy_In in Hkid|];
        destruct (flag Flags.unknown d) as [[|]|]; auto;
        apply in_app_or in Hkid; destruct Hkid as [?|[<-|[]]]; auto. }
    destruct Hk as [Hk | ->]; [|destruct Hin].
    apply filterMap_Survivors in Hkids.
    destruct (Survivors_In _ _ _ _ Hkids Hk) as (entry & Hentry & Hparse).
    apply parseEntry_named in Hparse. destruct Hparse as (p & Hp & ->).
    rewrite customTypes_setName in Hin.
    destruct (keys d) as [ks|] eqn:Hks; [|destruct Hentry].
    apply (labelsOf_keys d entry ks lbl Hks Hentry).
    exact (IH _ _ _ _ _ _ Hp Hin). }
  rewrite (parseBasicSchema_customTypes d s t0 Hshape) in Hin. destruct Hin.
Qed.

Lemma custom_types_are_labels_witness :
  In "Person"
    (labelsOf
       (mkDescribe "array" (Some (Flags.mk (Some "People") None None None)) None
          (Some [mkDescribe "object" (Some (Flags.mk (Some "Person") None None None))
                   None None (Some []) None])
          None None)).
Proof.
  apply (custom_types_are_labels 2
           (mkDescribe "array" (Some (Flags.mk (Some "People") None None None)) None
              (Some [mkDescribe "object"
                       (Some (Flags.mk (Some "Person") None None None))
                       None None (Some []) None])
              None None)
           (mkSettings true true false) false []
           (TypeContentRoot "list"
              [TypeContentChild "Person"
                 (mkBase None (Some ["Person"]) (Some true) None)]
              (mkBase (Some "People") None (Some true) None))
           "Person");
    [reflexivity | now left].
Defined.

(* ================================================================= *)
(** * The properties of a parsed object *)

Lemma insertBy_Permutation {A : Type} (cmp : A -> A -> Z) (a : A) (l : list A) :
  Permutation (a :: l) (insertBy cmp a l).
Proof.
  induction l as [|b l IH]; cbn [insertBy]; [reflexivity|].
  destruct (cmp a b <=? 0)%Z; [reflexivity|].
  rewrite perm_swap. now apply perm_skip.
Qed.

Lemma sortBy_Permutation {A : Type} (cmp : A -> A -> Z) (l : list A) :
  Permutation l (sortBy cmp l).
Proof.
  induction l as [|a l IH]; cbn [sortBy fold_right]; [reflexivity|].
  fold (sortBy cmp l). rewrite <- insertBy_Permutation. now apply perm_skip.
Qed.

Lemma Survivors_length {A B : Type} (f : A -> result (option B)) (l : list A)
    (bs : list B) :
  Survivors f l bs -> length bs <= length l.
Proof.
  induction 1; cbn [length]; lia.
Qed.

Lemma arrange_catchAll (d : Describe) (s : Settings) (kids : list TypeContent) :
  arrange d s kids
  = if sortPropertiesByName s then sortBy compareByName (kids ++ catchAll d)
    else (kids ++ catchAll d)%list.
Proof.
  unfold arrange, catchAll.
  destruct (flag Flags.unknown d) as [[|]|]; rewrite ?app_nil_r; reflexivity.
Qed.

Lemma parsed_object_inv (stack : nat) (d : Describe) (s : Settings)
    (useLabels : bool) (ignoreLabels : list string) (t : TypeContent) :
  type d = "object" ->
  labelShortCircuit d useLabels ignoreLabels = false ->
  parseSchema (S stack) d s useLabels ignoreLabels = Ok (Some t) ->
  exists kids,
    Survivors (parseEntry (parseSchema stack) s) (entriesOf d) kids
    /\ t = TypeContentRoot "object" (arrange d s kids)
             (mkBase (flag Flags.label d) None
                (Some (snd (getCommonDetails d s))) (flag Flags.description d)).
Proof.
  intros Htype Hsc Ht.
  rewrite parseSchema_object in Ht by assumption.
  fold (entriesOf d) in Ht.
  destruct (filterMap _ _) as [kids|e] eqn:Hkids; [|discriminate Ht].
  injection Ht as <-. exists kids. split; [|reflexivity].
  now apply filterMap_Survivors.
Qed.

(** X17: the children of a parsed object are the parses of its entries that
    are not nothing, in the order of the keys, with the catch-all property
    behind them when [flags.unknown] is [true]; sorting by name permutes
    them and neither drops nor adds one. *)
Theorem object_children_are_the_entries :
  forall (stack : nat) (d : Describe) (s : Settings) (useLabels : bool)
         (ignoreLabels : list string) (t : TypeContent),
    type d = "object" ->
    labelShortCircuit d useLabels ignoreLabels = false ->
    parseSchema (S stack) d s useLabels ignoreLabels = Ok (Some t) ->
    exists kids children b,
      t = TypeContentRoot "object" children b
      /\ Survivors (parseEntry (parseSchema stack) s) (entriesOf d) kids
      /\ Permutation (kids ++ catchAll d) children
      /\ (sortPropertiesByName s = false -> children = (kids ++ catchAll d)%list)
      /\ length children <= length (entriesOf d) + length (catchAll d).
Proof.
  intros stack d s ul il t Htype Hsc Ht.
  destruct (parsed_object_inv _ _ _ _ _ _ Htype Hsc Ht) as (kids & Hkids & ->).
  exists kids. eexists. eexists. split; [reflexivity|].
  split; [exact Hkids|].
  rewrite arrange_catchAll.
  assert (Hperm : Permutation (kids ++ catchAll d)
                    (if sortPropertiesByName s
                     then sortBy compareByName (kids ++ catchAll d)
                     else (kids ++ catchAll d)%list)).
  { destruct (sortPropertiesByName s); [apply sortBy_Permutation | reflexivity]. }
  split; [exact Hperm|]. split.
  - intros ->. reflexivity.
  - rewrite <- (Permutation_length Hperm), length_app.
    pose proof (Survivors_length _ _ _ Hkids). lia.
Qed.

Lemma object_children_are_the_entries_witness :
  exists kids children b,
    TypeContentRoot "object"
      [TypeContentChild "number" (mkBase (Some "id") None (Some true) None);
       unknownProperty]
      (mkBase None None (Some true) None)
    = TypeContentRoot "object" children b
    /\ Survivors (parseEntry (parseSchema 1) (mkSettings true false false))
         [("id", mkDescribe "number" None None None None None);
          ("blob", mkDescribe "binary" None None None None None)] kids
    /\ children = (kids ++ [unknownProperty])%list.
Proof.
  destruct (object_children_are_the_entries 1
              (mkDescribe "object" (Some (Flags.mk None None None (Some true)))
                 None None
                 (Some [("id", mkDescribe "number" None None None None None);
                        ("blob", mkDescribe "binary" None None None None None)])
                 None)
              (mkSettings true false false) true []
              (TypeContentRoot "object"
                 [TypeContentChild "number" (mkBase (Some "id") None (Some true) None);
                  unknownProperty]
                 (mkBase None None (Some true) None))
              eq_refl eq_refl eq_refl)
    as (kids & children & b & Et & Hkids & _ & Horder & _).
  exists kids, children, b. repeat split; [exact Et | exact Hkids|].
  exact (Horder eq_refl).
Defined.

Lemma append_cancel_r (a b c : string) : a ++ c = b ++ c -> a = b.
Proof.
  revert b. induction a as [|x a IH]; intros [|y b] H.
  - reflexivity.
  - symmetry in H. apply (append_eq_r (String y b) c) in H. discriminate H.
  - apply (append_eq_r (String x a) c) in H. discriminate H.
  - injection H as -> H. f_equal. now apply IH.
Qed.

Lemma propertyName_inj (k1 k2 : string) :
  propertyName k1 = propertyName k2 -> k1 = k2.
Proof.
  unfold propertyName.
  destruct (isIdentifier k1) eqn:H1, (isIdentifier k2) eqn:H2; intros H.
  - exact H.
  - subst k1. discriminate H1.
  - subst k2. discriminate H2.
  - injection H as H. now apply append_cancel_r in H.
Qed.

Lemma propertyName_not_catchAll (key : string) : propertyName key <> "[x: string]".
Proof.
  unfold propertyName. destruct (isIdentifier key) eqn:H; intros E.
  - subst key. discriminate H.
  - discriminate E.
Qed.

Lemma propertyName_not_empty (key : string) : propertyName key <> EmptyString.
Proof.
  unfold propertyName. destruct (isIdentifier key) eqn:H; intros E.
  - subst key. discriminate H.
  - discriminate E.
Qed.

Lemma nameOf_setName (t : TypeContent) (n : string) : nameOf (setName t n) = Some n.
Proof. destruct t; reflexivity. Qed.

Lemma Survivors_entry_names self (s : Settings) (entries : list (string * Describe))
    (kids : list TypeContent) :
  Survivors (parseEntry self s) entries kids ->
  forall kid, In kid kids ->
              exists entry, In entry entries
                            /\ nameOf kid = Some (propertyName (fst entry)).
Proof.
  intros Hs kid Hkid.
  destruct (Survivors_In _ _ _ _ Hs Hkid) as (entry & Hentry & Hparse).
  apply parseEntry_named in Hparse. destruct Hparse as (p & _ & ->).
  exists entry. split; [exact Hentry | apply nameOf_setName].
Qed.

(** X15: every child of a parsed object has a name that is not empty: the
    key itself when it is an identifier, the key between single quotes
    otherwise, or the index signature of the catch-all property. *)
Theorem object_children_are_named :
  forall (stack : nat) (d : Describe) (s : Settings) (useLabels : bool)
         (ignoreLabels : list string) (children : list TypeContent)
         (b : BaseTypeContent),
    type d = "object" ->
    labelShortCircuit d useLabels ignoreLabels = false ->
    parseSchema (S stack) d s useLabels ignoreLabels
    = Ok (Some (TypeContentRoot "object" children b)) ->
    forall child, In child children ->
      truthy (nameOf child) = true
      /\ (nameOf child = Some "[x: string]"
          \/ exists key, In key (map fst (entriesOf d))
                         /\ nameOf child
                            = Some (if isIdentifier key then key
                                    else "'" ++ key ++ "'")).
Proof.
  intros stack d s ul il children b Htype Hsc Ht child Hchild.
  destruct (parsed_object_inv _ _ _ _ _ _ Htype Hsc Ht) as (kids & Hkids & E).
  injection E as -> _. rewrite arrange_catchAll in Hchild.
  assert (Hin : In child (kids ++ catchAll d)).
  { destruct (sortPropertiesByName s); [now apply sortBy_In in Hchild | exact Hchild]. }
  apply in_app_or in Hin. destruct Hin as [Hin|Hin].
  - destruct (Survivors_entry_names _ _ _ _ Hkids child Hin) as (entry & He & Hn).
    split.
    + rewrite Hn. apply truthy_some, propertyName_not_empty.
    + right. exists (fst entry). split; [now apply in_map | exact Hn].
  - unfold catchAll in Hin.
    destruct (flag Flags.unknown d) as [[|]|]; try destruct Hin as [<-|[]];
      try destruct Hin.
    split; [reflexivity | now left].
Qed.

Lemma object_children_are_named_witness :
  truthy (nameOf (TypeContentChild "number"
                    (mkBase (Some "'a-b'") None (Some true) None))) = true.
Proof.
  apply (object_children_are_named 1
           (mkDescribe "object" None None None
              (Some [("a-b", mkDescribe "number" None None None None None)]) None)
           (mkSettings true true false) true []
           [TypeContentChild "number" (mkBase (Some "'a-b'") None (Some true) None)]
           (mkBase None None (Some true) None)
           eq_refl eq_refl eq_refl
           (TypeContentChild "number" (mkBase (Some "'a-b'") None (Some true) None))).
  now left.
Defined.

Lemma Survivors_names_NoDup self (s : Settings) (entries : list (string * Describe))
    (kids : list TypeContent) :
  Survivors (parseEntry self s) entries kids ->
  NoDup (map fst entries) -> NoDup (map nameOf kids).
Proof.
  induction 1 as [|a l bs Ha Hs IH|a b l bs Ha Hs IH]; intros Hnd.
  - constructor.
  - apply IH. now inversion Hnd.
  - cbn [map] in *. inversion Hnd as [|? ? Hnotin Hrest]; subst.
    constructor; [|now apply IH].
    intros Hin. apply in_map_iff in Hin. destruct Hin as (kid & Hname & Hkid).
    destruct (Survivors_entry_names _ _ _ _ Hs kid Hkid) as (entry & Hentry & Hn).
    apply parseEntry_named in Ha. destruct Ha as (p & _ & ->).
    rewrite nameOf_setName, Hn in Hname. injection Hname as Hname.
    apply propertyName_inj in Hname. apply Hnotin. rewrite <- Hname.
    now apply in_map.
Qed.

Lemma NoDup_map_eq {A B : Type} (f : A -> B) (l : list A) :
  NoDup (map f l) ->
  forall x y, In x l -> In y l -> f x = f y -> x = y.
Proof.
  induction l as [|a l IH]; intros Hnd x y Hx Hy Hf; [destruct Hx|].
  cbn [map] in Hnd. inversion Hnd as [|? ? Hnotin Hrest]; subst.
  destruct Hx as [<-|Hx], Hy as [<-|Hy]; auto.
  - elim Hnotin. rewrite Hf. now apply in_map.
  - elim Hnotin. rewrite <- Hf. now apply in_map.
Qed.

(** X16: the keys of an object being distinct, so are the names of the
    children of its parse, the catch-all property included: the comparator
    of the sort never meets two equal names. *)
Theorem object_names_are_distinct :
  forall (stack : nat) (d : Describe) (s : Settings) (useLabels : bool)
         (ignoreLabels : list string) (children : list TypeContent)
         (b : BaseTypeContent),
    type d = "object" ->
    labelShortCircuit d useLabels ignoreLabels = false ->
    NoDup (map fst (entriesOf d)) ->
    parseSchema (S stack) d s useLabels ignoreLabels
    = Ok (Some (TypeContentRoot "object" children b)) ->
    NoDup (map nameOf children)
    /\ forall x y, In x children -> In y children -> x <> y ->
                   compareByName x y <> 0%Z.
Proof.
  intros stack d s ul il children b Htype Hsc Hnd Ht.
  destruct (parsed_object_inv _ _ _ _ _ _ Htype Hsc Ht) as (kids & Hkids & E).
  injection E as -> _. rewrite arrange_catchAll.
  assert (Hbase : NoDup (map nameOf (kids ++ catchAll d))).
  { rewrite map_app. apply NoDup_app.
    - now apply (Survivors_names_NoDup _ _ _ _ Hkids).
    - unfold catchAll. destruct (flag Flags.unknown d) as [[|]|];
        repeat constructor; intros [].
    - intros n Hn Hc. apply in_map_iff in Hn. destruct Hn as (kid & <- & Hkid).
      destruct (Survivors_entry_names _ _ _ _ Hkids kid Hkid) as (entry & _ & Hn).
      unfold catchAll in Hc. destruct (flag Flags.unknown d) as [[|]|];
        cbn [map] in Hc; [|destruct Hc..].
      destruct Hc as [Hc|[]]. rewrite Hn in Hc. injection Hc as Hc.
      symmetry in Hc. now apply propertyName_not_catchAll in Hc. }
  assert (Hall : NoDup (map nameOf
                          (if sortPropertiesByName s
                           then sortBy compareByName (kids ++ catchAll d)
                           else (kids ++ catchAll d)%list))).
  { destruct (sortPropertiesByName s); [|exact Hbase].
    eapply Permutation_NoDup; [|exact Hbase].
    apply Permutation_map, sortBy_Permutation. }
  split; [exact Hall|].
  intros x y Hx Hy Hxy Hcmp.
  assert (Hnamed : forall c, In c (if sortPropertiesByName s
                                   then sortBy compareByName (kids ++ catchAll d)
                                   else (kids ++ catchAll d)%list) ->
                             exists n, nameOf c = Some n).
  { intros c Hc.
    assert (Hin : In c (kids ++ catchAll d)).
    { destruct (sortPropertiesByName s); [now apply sortBy_In in Hc | exact Hc]. }
    apply in_app_or in Hin. destruct Hin as [Hin|Hin].
    - destruct (Survivors_entry_names _ _ _ _ Hkids c Hin) as (entry & _ & Hn).
      eexists; exact Hn.
    - unfold catchAll in Hin. destruct (flag Flags.unknown d) as [[|]|];
        try destruct Hin as [<-|[]]; try destruct Hin.
      eexists; reflexivity. }
  destruct (Hnamed x Hx) as [nx Hnx]. destruct (Hnamed y Hy) as [ny Hny].
  assert (Hne : nx <> ny).
  { intros ->. apply Hxy.
    apply (NoDup_map_eq nameOf _ Hall x y Hx Hy). congruence. }
  unfold compareByName, jsGt, jsLt in Hcmp. unfold nameOf in Hnx, Hny.
  rewrite Hnx, Hny in Hcmp. unfold String.ltb in Hcmp.
  rewrite (String.compare_antisym ny nx) in Hcmp.
  destruct (String.compare nx ny) eqn:Hc; cbn in Hcmp; try discriminate Hcmp.
  apply String.compare_eq_iff in Hc. contradiction.
Qed.

Lemma object_names_are_distinct_witness :
  NoDup (map nameOf
           [TypeContentChild "number" (mkBase (Some "'a-b'") None (Some true) None);
            unknownProperty;
            TypeContentChild "string" (mkBase (Some "id") None (Some true) None)]).
Proof.
  apply (object_names_are_distinct 1
           (mkDescribe "object" (Some (Flags.mk None None None (Some true)))
              None None
              (Some [("id", mkDescribe "string" None None None None None);
                     ("a-b", mkDescribe "number" None None None None None)]) None)
           (mkSettings true true false) true []
           [TypeContentChild "number" (mkBase (Some "'a-b'") None (Some true) None);
            unknownProperty;
            TypeContentChild "string" (mkBase (Some "id") None (Some true) None)]
           (mkBase None None (Some true) None) eq_refl eq_refl);
    [|reflexivity].
  repeat constructor; cbn; intuition discriminate.
Defined.

(* ================================================================= *)
(** * The entry point of the renderer and the indentation *)

Lemma helper_description (ce : bool) (t : TypeContent) (doExport : bool)
    (indentLevel : nat) (text : string) (descr : option string) :
  typeContentToTsHelper ce t doExport indentLevel = Ok (text, descr) ->
  descr = description (baseOf t).
Proof.
  destruct t as [content b|j ch b]; cbn [typeContentToTsHelper baseOf].
  - intros H. now injection H as _ <-.
  - destruct (doExport && negb (truthy (name b))); [discriminate|].
    destruct (j =? "list").
    { destruct (mapE _ ch) as [[|first rest]|e]; cbn [bind]; try discriminate.
      destruct (1 <? length (first :: rest))%nat; [discriminate|].
      destruct doExport; intros H; now injection H as _ <-. }
    destruct (j =? "union").
    { destruct (mapE _ ch) as [texts|e]; cbn [bind]; [|discriminate].
      destruct doExport; intros H; now injection H as _ <-. }
    destruct (j =? "object"); [|discriminate].
    destruct ((length ch =? 0)%nat && negb doExport);
      [intros H; now injection H as _ <-|].
    match goal with
    | |- bind ?m _ = _ -> _ => destruct m as [objectStr|e]
    end; cbn [bind]; [|discriminate].
    destruct doExport; intros H; now injection H as _ <-.
Qed.

(** X19: the text [typeContentToTs] returns is the documentation comment of
    the node, made of its own description and name at level 0, followed by
    what the helper renders; when the helper throws, the entry point throws
    the same. *)
Theorem typeContentToTs_is_comment_then_declaration :
  forall (ce : bool) (t : TypeContent) (doExport : bool),
    (forall out,
        typeContentToTs ce t doExport = Ok out ->
        exists text,
          typeContentToTsHelper ce t doExport 0 = Ok (text, description (baseOf t))
          /\ out = getDescriptionStr ce (name (baseOf t)) (description (baseOf t)) 0
                   ++ text)
    /\ (forall e,
          typeContentToTs ce t doExport = Throw e
          <-> typeContentToTsHelper ce t doExport 0 = Throw e).
Proof.
  intros ce t doExport. unfold typeContentToTs.
  destruct (typeContentToTsHelper ce t doExport 0) as [[text descr]|e0] eqn:Hh;
    cbn [bind].
  - pose proof (helper_description _ _ _ _ _ _ Hh) as ->. split.
    + intros out H. injection H as <-. exists text. split; reflexivity.
    + intros e. split; discriminate.
  - split; [discriminate|].
    intros e. split; intros H; injection H as ->; reflexivity.
Qed.

(** X20: the indentation level reaches the properties of an [object] only:
    a leaf, a [list] and a [union] render the same at every level, their
    children being rendered at level 0. *)
Theorem indentation_is_for_objects_only :
  forall (ce : bool) (t : TypeContent) (doExport : bool) (indentLevel : nat),
    (forall ch b, t <> TypeContentRoot "object" ch b) ->
    typeContentToTsHelper ce t doExport indentLevel
    = typeContentToTsHelper ce t doExport 0.
Proof.
  intros ce [content b|j ch b] doExport indent Hobj; [reflexivity|].
  cbn [typeContentToTsHelper].
  destruct (doExport && negb (truthy (name b))); [reflexivity|].
  destruct (j =? "list"); [reflexivity|].
  destruct (j =? "union"); [reflexivity|].
  destruct (j =? "object") eqn:Hj; [|reflexivity].
  apply String.eqb_eq in Hj. subst j. now elim (Hobj ch b).
Qed.

Lemma indentation_is_for_objects_only_witness :
  typeContentToTsHelper false
    (TypeContentRoot "list"
       [TypeContentRoot "object"
          [TypeContentChild "string" (mkBase (Some "id") None (Some true) None)]
          (mkBase None None None None)]
       (mkBase None None None None)) false 3
  = typeContentToTsHelper false
      (TypeContentRoot "list"
         [TypeContentRoot "object"
            [TypeContentChild "string" (mkBase (Some "id") None (Some true) None)]
            (mkBase None None None None)]
         (mkBase None None None None)) false 0.
Proof.
  apply (indentation_is_for_objects_only false
           (TypeContentRoot "list"
              [TypeContentRoot "object"
                 [TypeContentChild "string"
                    (mkBase (Some "id") None (Some true) None)]
                 (mkBase None None None None)]
              (mkBase None None None None)) false 3).
  intros ch b. discriminate.
Defined.

(* ================================================================= *)
(** * Labels below an array and below alternatives *)

(** X21: an array whose first item carries a label parses to a [list] of
    the reference to that label, whatever the item is made of, and its one
    custom type is the label; it renders as the label followed by [[]]
    when the label holds no union operator. *)
Theorem array_of_labelled_item :
  forall (stack : nat) (d item : Describe) (others : list Describe) (s : Settings)
         (useLabels : bool) (ignoreLabels : list string) (l : string),
    type d = "array" ->
    labelShortCircuit d useLabels ignoreLabels = false ->
    items d = Some (item :: others) ->
    flag Flags.label item = Some l -> l <> EmptyString ->
    exists t,
      parseSchema (S (S stack)) d s useLabels ignoreLabels = Ok (Some t)
      /\ getAllCustomTypes t = [l]
      /\ (includes l "|" = false ->
          forall ce indentLevel,
            typeContentToTsHelper ce t false indentLevel
            = Ok (l ++ "[]", flag Flags.description d)).
Proof.
  intros stack d item others s ul il l Htype Hsc Hitems Hl Hne.
  rewrite parseSchema_unfold, Hsc, Htype.
  change (negb (includesStr supportedJoiTypes "array")) with false.
  change ("array" =? "array") with true. cbv iota.
  unfold parseArray. rewrite Hitems. cbn [nth_error].
  destruct (getCommonDetails d s) as [[lbl descr] req] eqn:Hcommon.
  rewrite parseSchema_unfold.
  assert (Hitem : labelShortCircuit item true [] = true).
  { unfold labelShortCircuit. rewrite Hl. cbn [templ includesStr existsb negb].
    now rewrite (truthy_some l Hne). }
  rewrite Hitem, Hl. cbn [bind templ makeTypeContentRoot makeTypeContentChild
                          withBase baseOf customTypes].
  eexists. split; [reflexivity|]. split; [reflexivity|].
  intros Hincl ce indent.
  rewrite helper_list. cbn [andb mapE typeContentToTsHelper bind length Nat.ltb
                            Nat.leb tsContent fst description].
  unfold makeTypeContentChild.
  cbn [typeContentToTsHelper bind length tsContent fst]. now rewrite Hincl.
Qed.

Lemma array_of_labelled_item_witness :
  exists t,
    parseSchema 2
      (mkDescribe "array" (Some (Flags.mk (Some "People") None None None)) None
         (Some [mkDescribe "object" (Some (Flags.mk (Some "Person") None None None))
                  None None (Some []) None])
         None None)
      (mkSettings true true false) false []
    = Ok (Some t)
    /\ getAllCustomTypes t = ["Person"]
    /\ typeContentToTsHelper false t false 0 = Ok ("Person[]", None).
Proof.
  destruct (array_of_labelled_item 0
              (mkDescribe "array" (Some (Flags.mk (Some "People") None None None))
                 None
                 (Some [mkDescribe "object"
                          (Some (Flags.mk (Some "Person") None None None))
                          None None (Some []) None])
                 None None)
              (mkDescribe "object" (Some (Flags.mk (Some "Person") None None None))
                 None None (Some []) None)
              [] (mkSettings true true false) false [] "Person"
              eq_refl eq_refl eq_refl eq_refl)
    as (t & Hparse & Htypes & Hrender); [discriminate|].
  exists t. repeat split; [exact Hparse | exact Htypes|].
  apply (Hrender eq_refl false 0).
Defined.

(** X22: below an alternatives node, a match that carries the label of the
    node itself is parsed for what it is, as if labels were not followed; a
    match with another label is replaced by the reference to that label. *)
Theorem alternatives_own_label_is_not_followed :
  forall (stack : nat) (d m : Describe) (s : Settings) (l : string),
    flag Flags.label m = Some l -> l <> EmptyString ->
    (flag Flags.label d = Some l ->
     parseSchema stack m s true (ownLabel d) = parseSchema stack m s false [])
    /\ (flag Flags.label d <> Some l ->
        parseSchema (S stack) m s true (ownLabel d)
        = Ok (Some (TypeContentChild l
                      (mkBase None (Some [l]) (Some (snd (getCommonDetails m s)))
                         (flag Flags.description m))))).
Proof.
  intros stack d m s l Hm Hne. split.
  - intros Hd. destruct stack as [|stack]; [reflexivity|].
    rewrite !parseSchema_unfold.
    assert (E : labelShortCircuit m true (ownLabel d) = labelShortCircuit m false []).
    { unfold labelShortCircuit, ownLabel. rewrite Hm, Hd.
      apply String.eqb_neq in Hne. rewrite Hne.
      cbn [templ includesStr existsb]. rewrite String.eqb_refl.
      now destruct (truthy (Some l)). }
    now rewrite E.
  - intros Hd. rewrite parseSchema_unfold.
    assert (E : labelShortCircuit m true (ownLabel d) = true).
    { unfold labelShortCircuit, ownLabel. rewrite Hm.
      rewrite (truthy_some l Hne). cbn [templ andb].
      destruct (flag Flags.label d) as [ld|]; [|reflexivity].
      destruct (ld =? EmptyString); [reflexivity|].
      cbn [includesStr existsb]. rewrite orb_false_r.
      apply negb_true_iff, String.eqb_neq. congruence. }
    rewrite E, Hm. reflexivity.
Qed.

Lemma alternatives_own_label_is_not_followed_witness :
  parseSchema 1
    (mkDescribe "string" (Some (Flags.mk (Some "Either") None None None))
       None None None None)
    (mkSettings true true false) true
    (ownLabel (mkDescribe "alternatives"
                 (Some (Flags.mk (Some "Either") None None None))
                 None None None None))
  = parseSchema 1
      (mkDescribe "string" (Some (Flags.mk (Some "Either") None None None))
         None None None None)
      (mkSettings true true false) false [].
Proof.
  destruct (alternatives_own_label_is_not_followed 1
              (mkDescribe "alternatives"
                 (Some (Flags.mk (Some "Either") None None None))
                 None None None None)
              (mkDescribe "string" (Some (Flags.mk (Some "Either") None None None))
                 None None None None)
              (mkSettings true true false) "Either" eq_refl)
    as [Hown _]; [discriminate|].
  apply Hown. reflexivity.
Defined.

Lemma getDescriptionStr_empty_iff_witness :
  getDescriptionStr false (Some "Job") (Some EmptyString) 2 = EmptyString
  /\ getDescriptionStr true (Some "Job") None 1
     = ("  /**" ++ nl ++ "   * Job" ++ nl ++ "   */") ++ nl.
Proof.
  split.
  - apply (proj1 (getDescriptionStr_empty_iff false (Some "Job")
                    (Some EmptyString) 2)).
    split; reflexivity.
  - apply (proj2 (getDescriptionStr_empty_iff true (Some "Job") None 1)).
    now left.
Defined.

Lemma typeContentToTs_is_comment_then_declaration_witness :
  typeContentToTsHelper true
    (TypeContentRoot "tuple" [] (mkBase (Some "T") None None None)) true 0
  = Throw (UnsupportedJoin "tuple").
Proof.
  apply (proj2 (typeContentToTs_is_comment_then_declaration true
                  (TypeContentRoot "tuple" [] (mkBase (Some "T") None None None))
                  true)).
  reflexivity.
Defined.
